(** * Subscription lifecycle of the dxFeed demo client (src/main.cpp)

    A shallow embedding of [main.cpp]: the display helpers, [processLastError],
    the [Subscription<id>] class template (constructor, [getListener],
    [CloseImpl], [Close], destructor) and the vector of subscriptions that
    [main] builds and releases.

    The dxFeed C API is an external library.  Its functions are the fields of
    the class [DXFeed]: each one maps the library's state to a result and a new
    state, so every statement below holds for whatever the library answers.
    The constants of its headers are the fields of the class [DXFeedH]. *)

From Stdlib Require Import ZArith String Ascii List Bool Lia.
From stdpp Require Import base list.
Import ListNotations.

Local Open Scope Z_scope.

(** ** Types of the C API *)

Definition ERRORCODE := Z.
Definition dxf_connection_t := Z.
Definition dxf_subscription_t := Z.
Definition dxf_long_t := Z.
Definition nullptr : Z := 0.

(** A wide character string is a sequence of [wchar_t] code units; a
    [dxf_const_string_t] is a pointer to one, or null. *)
Definition wchar_t := N.
Definition wstring := list wchar_t.
Definition dxf_const_string_t := option wstring.

(** The wide literal [L"..."] of an ASCII text. *)
Definition L (s : string) : dxf_const_string_t :=
  Some (map N_of_ascii (list_ascii_of_string s)).

(** ** [StringConverter]

    [std::string(wstring.begin(), wstring.end())] converts every [wchar_t]
    to [char], and [std::wstring(string.begin(), string.end())] every [char]
    to [wchar_t], by the integral conversions of C++.  On bit patterns of
    two's complement types: narrowing keeps the low eight bits; widening
    keeps the value, so that a [char] with the top bit set is extended with
    ones when plain [char] is signed and with zeros when it is not.  Whether
    plain [char] is signed and how wide [wchar_t] is depend on the platform. *)

Module StringConverter.
Section Conversions.
Variable char_is_signed : bool.
Variable wchar_bits : N.

Definition wchar_to_char (u : wchar_t) : ascii := ascii_of_N (u mod 256)%N.

Definition char_to_wchar (c : ascii) : wchar_t :=
  let n := N_of_ascii c in
  if char_is_signed && (128 <=? n)%N then (2 ^ wchar_bits - 256 + n)%N else n.

(** [toString(const std::wstring &)]. *)
Definition toString (w : wstring) : string :=
  string_of_list_ascii (map wchar_to_char w).

(** [toString(wchar_t)], through [std::wstring(1, wchar)]. *)
Definition toString_wchar (wchar : wchar_t) : string :=
  toString (repeat wchar 1).

(** [toString(first, last)], through [std::wstring(first, last)]; the range
    is given by its elements. *)
Definition toString_range (range : list wchar_t) : string :=
  toString range.

Definition toWString (s : string) : wstring :=
  map char_to_wchar (list_ascii_of_string s).
End Conversions.
End StringConverter.

(** Constants of DXFeed.h, DXErrorCodes.h and EventData.h. *)
Class DXFeedH := {
  DXF_SUCCESS : ERRORCODE;
  DXF_FAILURE : ERRORCODE;
  dx_ec_success : Z;
  DXF_ET_QUOTE : Z;
  dxf_osc_composite : Z;
  dxf_osc_regional : Z;
  dxf_osc_aggregate : Z;
  dxf_osc_order : Z;
  dxf_osd_undefined : Z;
  dxf_osd_buy : Z;
  dxf_osd_sell : Z
}.

(** The function a listener pointer points to: the captureless lambda of
    [Subscription<id>::getListener].  Every instantiation [id] of the template
    has its own lambda, hence its own function, and different functions have
    different addresses. *)
Inductive ListenerPtrType : Type :=
| lambda_of (id : N).

(** The mutexes of the program: the global [ioMutex] and the [mutex] member
    of a subscription, named by the [id] of the subscription ([main] makes
    one subscription for each [id]). *)
Inductive Mutex : Type :=
| ioMutex
| sub_mutex (id : N).

(** What is streamed to [std::wcout], one item per [<<]. *)
Inductive wostream_item : Type :=
| put_wide (s : dxf_const_string_t)
| put_narrow (s : string)
| put_int (n : Z)
| put_size_t (n : N)
| put_wchar (c : Z)
| put_double (bits : Z)
| put_local_time (seconds : Z) (millis : Z)
| put_endl.

(** [StringConverter::toString(symbol)], the text of the symbol that a log
    line prints.  The [std::wstring] is built from the pointer; from a null
    pointer that is undefined behaviour, and there is no text. *)
Definition symbol_text (symbol : dxf_const_string_t) : option string :=
  option_map StringConverter.toString symbol.

(** The lines written through [log] (arguments of [fmt::print], unformatted). *)
Inductive LogLine : Type :=
| log_creating (id : N)
| log_attaching (id : N) (h : dxf_subscription_t) (l : ListenerPtrType)
| log_adding (id : N) (h : dxf_subscription_t) (sym : option string)
| log_removing (id : N) (h : dxf_subscription_t) (sym : option string)
| log_detaching (id : N) (h : dxf_subscription_t) (l : ListenerPtrType)
| log_closing (id : N) (h : dxf_subscription_t).

(** Observable events: calls into the C API with what they returned, lock
    operations and output. *)
Inductive Event : Type :=
| EvLock (m : Mutex)
| EvUnlock (m : Mutex)
| EvPrint (l : LogLine)
| EvWcout (i : wostream_item)
| EvCreateSubscription (c : dxf_connection_t) (event_types : Z)
                       (res : ERRORCODE) (h : dxf_subscription_t)
| EvAttachListener (h : dxf_subscription_t) (l : ListenerPtrType)
                   (user_data : N) (res : ERRORCODE)
| EvAddSymbol (h : dxf_subscription_t) (sym : dxf_const_string_t) (res : ERRORCODE)
| EvRemoveSymbol (h : dxf_subscription_t) (sym : dxf_const_string_t) (res : ERRORCODE)
| EvDetachListener (h : dxf_subscription_t) (l : ListenerPtrType) (res : ERRORCODE)
| EvCloseSubscription (h : dxf_subscription_t) (res : ERRORCODE)
| EvGetLastError (res : ERRORCODE) (code : Z) (descr : dxf_const_string_t).

(** The library, over its own state [T].  [dxf_create_subscription] returns
    the value it leaves in the out-parameter [&handle] (which held null);
    [dxf_get_last_error] the values it leaves in [&errorCode] and
    [&errorDescription] (which held [dx_ec_success] and null). *)
Class DXFeed (T : Type) := {
  dxf_create_subscription :
    dxf_connection_t -> Z -> T -> ERRORCODE * dxf_subscription_t * T;
  dxf_attach_event_listener :
    dxf_subscription_t -> ListenerPtrType -> N -> T -> ERRORCODE * T;
  dxf_add_symbol : dxf_subscription_t -> dxf_const_string_t -> T -> ERRORCODE * T;
  dxf_remove_symbol : dxf_subscription_t -> dxf_const_string_t -> T -> ERRORCODE * T;
  dxf_detach_event_listener :
    dxf_subscription_t -> ListenerPtrType -> T -> ERRORCODE * T;
  dxf_close_subscription : dxf_subscription_t -> T -> ERRORCODE * T;
  dxf_get_last_error : T -> ERRORCODE * Z * dxf_const_string_t * T
}.

(** ** Display helpers *)

Section Display.
Context {hdr : DXFeedH}.

Definition orderScopeToString (scope : Z) : dxf_const_string_t :=
  if scope =? dxf_osc_composite then L "Composite"
  else if scope =? dxf_osc_regional then L "Regional"
  else if scope =? dxf_osc_aggregate then L "Aggregate"
  else if scope =? dxf_osc_order then L "Order"
  else L "".

Definition orderSideToString (side : Z) : dxf_const_string_t :=
  if side =? dxf_osd_undefined then L "Undefined"
  else if side =? dxf_osd_buy then L "Buy"
  else if side =? dxf_osd_sell then L "Sell"
  else L "".

Definition order_scopes : list Z :=
  [dxf_osc_composite; dxf_osc_regional; dxf_osc_aggregate; dxf_osc_order].

Definition order_sides : list Z :=
  [dxf_osd_undefined; dxf_osd_buy; dxf_osd_sell].

Definition order_scope_names : list dxf_const_string_t :=
  [L "Composite"; L "Regional"; L "Aggregate"; L "Order"].

Definition order_side_names : list dxf_const_string_t :=
  [L "Undefined"; L "Buy"; L "Sell"].
End Display.

(** ** The monad of the program: library state in, events out *)

Definition M (T A : Type) : Type := T -> A * T * list Event.

Definition ret {T A} (a : A) : M T A := fun t => (a, t, []).

Definition bind {T A B} (m : M T A) (k : A -> M T B) : M T B :=
  fun t =>
    let '(a, t1, e1) := m t in
    let '(b, t2, e2) := k a t1 in
    (b, t2, e1 ++ e2).

Definition emit {T} (e : Event) : M T unit := fun t => (tt, t, [e]).

Notation "'let*' x := m 'in' k" := (bind m (fun x => k))
  (at level 10, x pattern, m at level 100, k at level 200).
Notation "m ;; k" := (bind m (fun _ => k))
  (at level 100, k at level 200, right associativity).

Definition result {T A} (r : A * T * list Event) : A := fst (fst r).
Definition state_after {T A} (r : A * T * list Event) : T := snd (fst r).
Definition events {T A} (r : A * T * list Event) : list Event := snd r.

(** ** Timestamps *)

(** [formatTimestampWithMillis<LOCAL>]: the seconds handed to [formatTime]
    and the milliseconds printed after them ([/] and [%] of C++ truncate
    towards zero).  The text itself is made by the fmt library. *)
Definition formatTimestampWithMillis (timestamp : Z) : wostream_item :=
  let ms := Z.rem timestamp 1000 in
  put_local_time (Z.quot timestamp 1000) ms.

Definition first_unit_nonzero (s : dxf_const_string_t) : bool :=
  match s with
  | Some (c :: _) => negb (c =? 0)%N
  | _ => false
  end.

Definition printTimestamp {T} (timestamp : dxf_long_t) (keyName : dxf_const_string_t)
  : M T unit :=
  (if first_unit_nonzero keyName
   then emit (EvWcout (put_wide keyName)) ;; emit (EvWcout (put_narrow " = "))
   else ret tt) ;;
  emit (EvWcout (formatTimestampWithMillis timestamp)).

(** ** The program over a library *)

(** The fields of [dxf_quote_t] that the listener reads.  Prices and sizes
    are doubles; they are only printed, and are kept as their bit patterns. *)
Record dxf_quote_t := {
  bid_time : dxf_long_t;
  bid_exchange_code : Z;
  bid_price : Z;
  bid_size : Z;
  ask_time : dxf_long_t;
  ask_exchange_code : Z;
  ask_price : Z;
  ask_size : Z;
  scope : Z
}.

(** The data members of [Subscription<id>], with the template argument. *)
Record Subscription := {
  sub_id : N;
  connection : dxf_connection_t;
  symbol : dxf_const_string_t;
  handle : dxf_subscription_t;
  errorCode : ERRORCODE
}.

Definition set_handle (h : dxf_subscription_t) (this : Subscription) : Subscription :=
  {| sub_id := sub_id this; connection := connection this; symbol := symbol this;
     handle := h; errorCode := errorCode this |}.

Definition set_errorCode (ec : ERRORCODE) (this : Subscription) : Subscription :=
  {| sub_id := sub_id this; connection := connection this; symbol := symbol this;
     handle := handle this; errorCode := ec |}.

(** The order in which the destructor of [std::vector] destroys the elements.
    The C++ standard does not fix it: libstdc++ and the MSVC library go from
    the first element to the last, libc++ from the last to the first. *)
Inductive DestructionOrder : Type :=
| FrontToBack
| BackToFront.

Definition dquote : string := String "034"%char EmptyString.

Section Program.
Context {T : Type} {api : DXFeed T} {hdr : DXFeedH}.

(** *** Calls into the library, recorded *)

Definition create_subscription (c : dxf_connection_t) (event_types : Z)
  : M T (ERRORCODE * dxf_subscription_t) :=
  fun t => let '(res, h, t') := dxf_create_subscription c event_types t in
           ((res, h), t', [EvCreateSubscription c event_types res h]).

Definition attach_event_listener (h : dxf_subscription_t) (l : ListenerPtrType)
           (user_data : N) : M T ERRORCODE :=
  fun t => let '(res, t') := dxf_attach_event_listener h l user_data t in
           (res, t', [EvAttachListener h l user_data res]).

Definition add_symbol (h : dxf_subscription_t) (sym : dxf_const_string_t)
  : M T ERRORCODE :=
  fun t => let '(res, t') := dxf_add_symbol h sym t in
           (res, t', [EvAddSymbol h sym res]).

Definition remove_symbol (h : dxf_subscription_t) (sym : dxf_const_string_t)
  : M T ERRORCODE :=
  fun t => let '(res, t') := dxf_remove_symbol h sym t in
           (res, t', [EvRemoveSymbol h sym res]).

Definition detach_event_listener (h : dxf_subscription_t) (l : ListenerPtrType)
  : M T ERRORCODE :=
  fun t => let '(res, t') := dxf_detach_event_listener h l t in
           (res, t', [EvDetachListener h l res]).

Definition close_subscription (h : dxf_subscription_t) : M T ERRORCODE :=
  fun t => let '(res, t') := dxf_close_subscription h t in
           (res, t', [EvCloseSubscription h res]).

Definition get_last_error : M T (ERRORCODE * Z * dxf_const_string_t) :=
  fun t => let '(res, code, descr, t') := dxf_get_last_error t in
           ((res, code, descr), t', [EvGetLastError res code descr]).

(** *** Output *)

Definition wcout (items : list wostream_item) : M T unit :=
  fun t => (tt, t, map EvWcout items).

Definition msg_no_error : list wostream_item :=
  [put_wide (L "No error information is stored"); put_endl].

Definition msg_error (errorCode : Z) (errorDescription : dxf_const_string_t)
  : list wostream_item :=
  [put_wide (L ("Error occurred and successfully retrieved:" ++ String "010"%char
                "error code = "));
   put_int errorCode;
   put_narrow (", description = " ++ dquote);
   put_wide errorDescription;
   put_narrow dquote;
   put_endl].

Definition msg_unavailable : list wostream_item :=
  [put_wide (L "An error occurred but the error subsystem failed to initialize");
   put_endl].

Definition processLastError : M T unit :=
  emit (EvLock ioMutex) ;;
  let* (res, errorCode, errorDescription) := get_last_error in
  (if res =? DXF_SUCCESS then
     if errorCode =? dx_ec_success then wcout msg_no_error
     else wcout (msg_error errorCode errorDescription)
   else wcout msg_unavailable) ;;
  emit (EvUnlock ioMutex).

Definition log (l : LogLine) : M T unit :=
  emit (EvLock ioMutex) ;; emit (EvPrint l) ;; emit (EvUnlock ioMutex).

(** *** [Subscription<id>] *)

(** [getListener]: the static local [l] is initialised once with the
    function the lambda converts to, and returned on every call. *)
Definition getListener (id : N) : ListenerPtrType := lambda_of id.

(** The body of the lambda: what the function [lambda_of id] does when the
    library calls it.  It has no access to any [Subscription] object. *)
Definition listener_body (id : N) (eventType : Z) (symbolName : dxf_const_string_t)
           (data : dxf_quote_t) (dataCount : Z) (userData : N) : M T unit :=
  emit (EvLock ioMutex) ;;
  wcout [put_narrow "Sub["; put_size_t id; put_narrow "]: Listener[";
         put_size_t userData; put_narrow "]: "] ;;
  (if eventType =? DXF_ET_QUOTE then
     let q := data in
     wcout [put_wide (L "Quote{symbol = "); put_wide symbolName] ;;
     wcout [put_wide (L " bidTime = ")] ;;
     printTimestamp (bid_time q) (L "") ;;
     wcout [put_wide (L " bidExchangeCode = "); put_wchar (bid_exchange_code q);
            put_narrow ", bidPrice = "; put_double (bid_price q);
            put_narrow ", bidSize="; put_double (bid_size q); put_narrow ", "] ;;
     wcout [put_wide (L "askTime = ")] ;;
     printTimestamp (ask_time q) (L "") ;;
     wcout [put_wide (L " askExchangeCode = "); put_wchar (ask_exchange_code q);
            put_narrow ", askPrice = "; put_double (bid_price q);
            put_narrow ", askSize="; put_double (bid_size q); put_narrow ", "] ;;
     wcout [put_wide (L "scope = "); put_wide (orderScopeToString (scope q));
            put_narrow "}"; put_endl]
   else ret tt) ;;
  emit (EvUnlock ioMutex).

Definition call_listener (l : ListenerPtrType) :=
  match l with lambda_of id => listener_body id end.

(** The constructor.  The member initialisers leave [handle] null and
    [errorCode] at [DXF_SUCCESS]. *)
Definition Subscription_ctor (id : N) (connection : dxf_connection_t)
           (symbol : dxf_const_string_t) : M T Subscription :=
  let this := {| sub_id := id; connection := connection; symbol := symbol;
                 handle := nullptr; errorCode := DXF_SUCCESS |} in
  log (log_creating id) ;;
  let* (ec, h) := create_subscription connection DXF_ET_QUOTE in
  let this := set_handle h (set_errorCode ec this) in
  if errorCode this =? DXF_FAILURE then
    processLastError ;; ret this
  else
    log (log_attaching id (handle this) (getListener id)) ;;
    let* ec := attach_event_listener (handle this) (getListener id) id in
    let this := set_errorCode ec this in
    if errorCode this =? DXF_FAILURE then
      processLastError ;; ret this
    else
      log (log_adding id (handle this) (symbol_text symbol)) ;;
      let* ec := add_symbol (handle this) symbol in
      let this := set_errorCode ec this in
      (if errorCode this =? DXF_FAILURE then processLastError else ret tt) ;;
      ret this.

(** The test of [CloseImpl]: [handle && errorCode == DXF_SUCCESS]. *)
Definition teardown_guard (this : Subscription) : bool :=
  negb (handle this =? nullptr) && (errorCode this =? DXF_SUCCESS).

Definition CloseImpl (this : Subscription) : M T Subscription :=
  let id := sub_id this in
  if teardown_guard this then
    log (log_removing id (handle this) (symbol_text (symbol this))) ;;
    let* ec := remove_symbol (handle this) (symbol this) in
    let this := set_errorCode ec this in
    if errorCode this =? DXF_FAILURE then
      processLastError ;; ret this
    else
      log (log_detaching id (handle this) (getListener id)) ;;
      let* result := detach_event_listener (handle this) (getListener id) in
      if result =? DXF_FAILURE then
        processLastError ;; ret this
      else
        log (log_closing id (handle this)) ;;
        let* ec := close_subscription (handle this) in
        let this := set_errorCode ec this in
        (if errorCode this =? DXF_FAILURE then processLastError else ret tt) ;;
        ret (set_handle nullptr this)
  else ret this.

(** [Close]: the [lock_guard] holds the member [mutex] around [CloseImpl]. *)
Definition Close (this : Subscription) : M T Subscription :=
  let mutex := sub_mutex (sub_id this) in
  emit (EvLock mutex) ;;
  let* this := CloseImpl this in
  emit (EvUnlock mutex) ;;
  ret this.

(** The destructor; what it returns is the object as [CloseImpl] left it,
    before its storage is released. *)
Definition Subscription_dtor (this : Subscription) : M T Subscription :=
  CloseImpl this.

(** *** The vector of subscriptions in [main] *)

(** [subs.emplace_back(new Subscription<id>(c, symbol))]. *)
Definition emplace_back (id : N) (c : dxf_connection_t) (symbol : dxf_const_string_t)
           (subs : list Subscription) : M T (list Subscription) :=
  let* s := Subscription_ctor id c symbol in
  ret (subs ++ [s]).

(** [subs[index]->Close()].  An index past the end is undefined behaviour
    in C++ and has no result here. *)
Definition closeAt (index : nat) (subs : list Subscription)
  : M T (option (list Subscription)) :=
  match subs !! index with
  | Some s => let* s' := Close s in ret (Some (<[index := s']> subs))
  | None => ret None
  end.

Fixpoint destroy_each (subs : list Subscription) : M T (list Subscription) :=
  match subs with
  | [] => ret []
  | s :: rest =>
      let* s' := Subscription_dtor s in
      let* rest' := destroy_each rest in
      ret (s' :: rest')
  end.

(** The destructor of [std::vector<std::unique_ptr<SubscriptionBase>>]
    deletes every element; C++ leaves the order to the standard library
    (see [DestructionOrder]).  The result lists the objects in the order of
    their destruction, each as its destructor left it. *)
Definition vector_dtor (order : DestructionOrder) (subs : list Subscription)
  : M T (list Subscription) :=
  destroy_each (match order with FrontToBack => subs | BackToFront => rev subs end).

(** [main], from the declaration of [subs] to the end of its scope (the
    calls of [sleep_for] between the statements are left out). *)
Definition main_subs (order : DestructionOrder) (c : dxf_connection_t)
           (symbol : dxf_const_string_t) : M T (list Subscription) :=
  let subs := [] in
  let* subs := emplace_back 1 c symbol subs in
  let* subs := emplace_back 2 c symbol subs in
  let* subs := emplace_back 3 c symbol subs in
  let* subs := emplace_back 4 c symbol subs in
  let* subs := emplace_back 5 c symbol subs in
  let* closed := closeAt 2 subs in
  match closed with
  | Some subs => vector_dtor order subs
  | None => ret []
  end.

(** *** Operations on one subscription after its construction *)

Inductive Op : Type :=
| OpClose
| OpDispatch (eventType : Z) (symbolName : dxf_const_string_t)
             (data : dxf_quote_t) (dataCount : Z)
| OpCreate (id : N) (c : dxf_connection_t) (symbol : dxf_const_string_t).

(** [OpClose] is a call of [Close]; [OpDispatch] is the library calling the
    attached listener with the registered user data; [OpCreate] constructs
    another subscription. *)
Definition run_op (op : Op) (this : Subscription) : M T Subscription :=
  match op with
  | OpClose => Close this
  | OpDispatch eventType symbolName data dataCount =>
      call_listener (getListener (sub_id this)) eventType symbolName data
                    dataCount (sub_id this) ;;
      ret this
  | OpCreate id c symbol =>
      Subscription_ctor id c symbol ;; ret this
  end.

Fixpoint run_ops (ops : list Op) (this : Subscription) : M T Subscription :=
  match ops with
  | [] => ret this
  | op :: ops' => let* this := run_op op this in run_ops ops' this
  end.

(** [n] calls of [Close] in a row. *)
Fixpoint Close_times (n : nat) (this : Subscription) : M T Subscription :=
  match n with
  | O => ret this
  | S n' => let* this := Close this in Close_times n' this
  end.
End Program.

(** ** Reading event lists *)

Definition is_remove_symbol (e : Event) : bool :=
  match e with EvRemoveSymbol _ _ _ => true | _ => false end.
Definition is_detach_listener (e : Event) : bool :=
  match e with EvDetachListener _ _ _ => true | _ => false end.
Definition is_close_subscription (e : Event) : bool :=
  match e with EvCloseSubscription _ _ => true | _ => false end.
Definition is_attach_listener (e : Event) : bool :=
  match e with EvAttachListener _ _ _ _ => true | _ => false end.
Definition is_add_symbol (e : Event) : bool :=
  match e with EvAddSymbol _ _ _ => true | _ => false end.
Definition is_create_subscription (e : Event) : bool :=
  match e with EvCreateSubscription _ _ _ _ => true | _ => false end.

(** A call into the subscription part of the library (the error query of
    [processLastError] is not one). *)
Definition is_facade_call (e : Event) : bool :=
  is_create_subscription e || is_attach_listener e || is_add_symbol e ||
  is_remove_symbol e || is_detach_listener e || is_close_subscription e.

Definition is_sub_lock (e : Event) : bool :=
  match e with EvLock (sub_mutex _) => true | _ => false end.

Definition count (p : Event -> bool) (evs : list Event) : nat :=
  length (List.filter p evs).

(** Diagnostic output: the log lines, what goes to [std::wcout], the error
    query behind it and the [ioMutex] around it. *)
Definition is_diagnostic (e : Event) : bool :=
  match e with
  | EvLock ioMutex | EvUnlock ioMutex => true
  | EvPrint _ | EvWcout _ | EvGetLastError _ _ _ => true
  | _ => false
  end.

(** The rest: the subscription calls and the locking of subscriptions. *)
Definition protocol (evs : list Event) : list Event :=
  List.filter (fun e => negb (is_diagnostic e)) evs.

(** The handles on which [dxf_remove_symbol] was called, in call order. *)
Definition removed_handles (evs : list Event) : list dxf_subscription_t :=
  omap (fun e => match e with EvRemoveSymbol h _ _ => Some h | _ => None end) evs.

(** What went to [std::wcout], in order. *)
Definition wcout_items (evs : list Event) : list wostream_item :=
  omap (fun e => match e with EvWcout i => Some i | _ => None end) evs.

(** A listener is used well by a subscription [id] when every attach passes
    the listener of [id] with [id] as user data and every detach passes the
    listener of [id]. *)
Definition listener_use_ok (id : N) (e : Event) : Prop :=
  match e with
  | EvAttachListener _ l u _ => l = lambda_of id /\ u = id
  | EvDetachListener _ l _ => l = lambda_of id
  | _ => True
  end.

(** ** Lifecycle

    The lifecycle state the specification speaks of.  The class has no member
    for it; it is read off the history of one subscription: the events of its
    constructor ([setup]) and the events since ([later]).  A subscription is
    [Active] once its three setup calls have returned [DXF_SUCCESS] and until
    [dxf_close_subscription] has been called for it, [Closed] from then on,
    and [Uninitialized] when its setup did not succeed. *)

Inductive Lifecycle : Type :=
| Uninitialized
| Active
| Closed.

Section Lifecycle.
Context {hdr : DXFeedH}.

Definition create_succeeded (e : Event) : bool :=
  match e with EvCreateSubscription _ _ res _ => res =? DXF_SUCCESS | _ => false end.
Definition attach_succeeded (e : Event) : bool :=
  match e with EvAttachListener _ _ _ res => res =? DXF_SUCCESS | _ => false end.
Definition add_succeeded (e : Event) : bool :=
  match e with EvAddSymbol _ _ res => res =? DXF_SUCCESS | _ => false end.

Definition setup_call_failed (e : Event) : bool :=
  match e with
  | EvCreateSubscription _ _ res _ => res =? DXF_FAILURE
  | EvAttachListener _ _ _ res => res =? DXF_FAILURE
  | EvAddSymbol _ _ res => res =? DXF_FAILURE
  | _ => false
  end.

Definition setup_succeeded (setup : list Event) : bool :=
  existsb create_succeeded setup && existsb attach_succeeded setup &&
  existsb add_succeeded setup.

Definition lifecycle (setup later : list Event) : Lifecycle :=
  if setup_succeeded setup then
    if existsb is_close_subscription later then Closed else Active
  else Uninitialized.
End Lifecycle.

(** ** The cases of the constructor and of [CloseImpl]

    Each case names the answers of the library that lead to it, the object it
    leaves and the protocol events it produces.  [Subscription_ctor_spec] and
    [CloseImpl_spec] show that the code always falls in one of them. *)

Section Outcomes.
Context {T : Type} {api : DXFeed T} {hdr : DXFeedH}.

Definition new_Subscription (id : N) (c : dxf_connection_t)
           (sym : dxf_const_string_t) (h : dxf_subscription_t) (ec : ERRORCODE)
  : Subscription :=
  {| sub_id := id; connection := c; symbol := sym; handle := h; errorCode := ec |}.

Inductive ctor_outcome (id : N) (c : dxf_connection_t) (sym : dxf_const_string_t)
          (t : T) : Subscription -> list Event -> Prop :=
| setup_create_failed h t1 :
    dxf_create_subscription c DXF_ET_QUOTE t = (DXF_FAILURE, h, t1) ->
    ctor_outcome id c sym t (new_Subscription id c sym h DXF_FAILURE)
      [EvCreateSubscription c DXF_ET_QUOTE DXF_FAILURE h]
| setup_attach_failed r1 h t1 t2 :
    dxf_create_subscription c DXF_ET_QUOTE t = (r1, h, t1) ->
    r1 <> DXF_FAILURE ->
    dxf_attach_event_listener h (getListener id) id t1 = (DXF_FAILURE, t2) ->
    ctor_outcome id c sym t (new_Subscription id c sym h DXF_FAILURE)
      [EvCreateSubscription c DXF_ET_QUOTE r1 h;
       EvAttachListener h (getListener id) id DXF_FAILURE]
| setup_symbol_added r1 h t1 r2 t2 r3 t3 :
    dxf_create_subscription c DXF_ET_QUOTE t = (r1, h, t1) ->
    r1 <> DXF_FAILURE ->
    dxf_attach_event_listener h (getListener id) id t1 = (r2, t2) ->
    r2 <> DXF_FAILURE ->
    dxf_add_symbol h sym t2 = (r3, t3) ->
    ctor_outcome id c sym t (new_Subscription id c sym h r3)
      [EvCreateSubscription c DXF_ET_QUOTE r1 h;
       EvAttachListener h (getListener id) id r2;
       EvAddSymbol h sym r3].

Inductive CloseImpl_outcome (this : Subscription) (t : T)
  : Subscription -> list Event -> Prop :=
| teardown_skipped :
    teardown_guard this = false ->
    CloseImpl_outcome this t this []
| teardown_remove_failed t1 :
    teardown_guard this = true ->
    dxf_remove_symbol (handle this) (symbol this) t = (DXF_FAILURE, t1) ->
    CloseImpl_outcome this t (set_errorCode DXF_FAILURE this)
      [EvRemoveSymbol (handle this) (symbol this) DXF_FAILURE]
| teardown_detach_failed r1 t1 t2 :
    teardown_guard this = true ->
    dxf_remove_symbol (handle this) (symbol this) t = (r1, t1) ->
    r1 <> DXF_FAILURE ->
    dxf_detach_event_listener (handle this) (getListener (sub_id this)) t1
      = (DXF_FAILURE, t2) ->
    CloseImpl_outcome this t (set_errorCode r1 this)
      [EvRemoveSymbol (handle this) (symbol this) r1;
       EvDetachListener (handle this) (getListener (sub_id this)) DXF_FAILURE]
| teardown_released r1 t1 r2 t2 r3 t3 :
    teardown_guard this = true ->
    dxf_remove_symbol (handle this) (symbol this) t = (r1, t1) ->
    r1 <> DXF_FAILURE ->
    dxf_detach_event_listener (handle this) (getListener (sub_id this)) t1
      = (r2, t2) ->
    r2 <> DXF_FAILURE ->
    dxf_close_subscription (handle this) t2 = (r3, t3) ->
    CloseImpl_outcome this t (set_handle nullptr (set_errorCode r3 this))
      [EvRemoveSymbol (handle this) (symbol this) r1;
       EvDetachListener (handle this) (getListener (sub_id this)) r2;
       EvCloseSubscription (handle this) r3].
End Outcomes.

(** ** A scripted library, for concrete runs *)

(** The values of the constants in the dxFeed C API headers. *)
Definition dxfeed_h : DXFeedH :=
  {| DXF_SUCCESS := 1; DXF_FAILURE := 0; dx_ec_success := 0; DXF_ET_QUOTE := 2;
     dxf_osc_composite := 0; dxf_osc_regional := 1; dxf_osc_aggregate := 2;
     dxf_osc_order := 3;
     dxf_osd_undefined := 0; dxf_osd_buy := 1; dxf_osd_sell := 2 |}.

(** A library that answers the subscription calls from a script, one answer
    per call and [1] once the script is used up, hands out the handles
    [next_handle], [next_handle + 1], ... and answers the error query with
    [error_info]. *)
Record Script := {
  answers : list ERRORCODE;
  next_handle : Z;
  error_info : ERRORCODE * Z * dxf_const_string_t
}.

Definition answer (t : Script) : ERRORCODE * Script :=
  match answers t with
  | [] => (1, t)
  | r :: rest =>
      (r, {| answers := rest; next_handle := next_handle t;
             error_info := error_info t |})
  end.

Definition scripted_create (t : Script) : ERRORCODE * dxf_subscription_t * Script :=
  let '(r, t') := answer t in
  if r =? 1
  then (r, next_handle t',
        {| answers := answers t'; next_handle := next_handle t' + 1;
           error_info := error_info t' |})
  else (r, nullptr, t').

Definition scripted : DXFeed Script :=
  {| dxf_create_subscription := fun _ _ => scripted_create;
     dxf_attach_event_listener := fun _ _ _ => answer;
     dxf_add_symbol := fun _ _ => answer;
     dxf_remove_symbol := fun _ _ => answer;
     dxf_detach_event_listener := fun _ _ => answer;
     dxf_close_subscription := fun _ => answer;
     dxf_get_last_error := fun t => (error_info t, t) |}.

Definition script (rs : list ERRORCODE) : Script :=
  {| answers := rs; next_handle := 100;
     error_info := (1, 42, L "scripted failure") |}.

Definition ETH_USD : dxf_const_string_t := L "ETH/USD".

(** The constructor of [Subscription<1>] on connection [7] against a script,
    and [Close] on what a run left. *)
Definition ctor1 (rs : list ERRORCODE) : Subscription * Script * list Event :=
  @Subscription_ctor Script scripted dxfeed_h 1 7 ETH_USD (script rs).

Definition Close1 (r : Subscription * Script * list Event)
  : Subscription * Script * list Event :=
  @Close Script scripted dxfeed_h (result r) (state_after r).

(** A quote record to dispatch. *)
Definition a_quote : dxf_quote_t :=
  {| bid_time := 1700000000123; bid_exchange_code := 81; bid_price := 0;
     bid_size := 0; ask_time := 1700000000456; ask_exchange_code := 81;
     ask_price := 0; ask_size := 0; scope := 0 |}.

(** Three active subscriptions, and the same with the second one closed. *)
Definition demo_subs : list Subscription :=
  [new_Subscription 1 7 ETH_USD 100 1; new_Subscription 2 7 ETH_USD 101 1;
   new_Subscription 3 7 ETH_USD 102 1].

Definition demo_closed : list Subscription :=
  [new_Subscription 1 7 ETH_USD 100 1; new_Subscription 2 7 ETH_USD nullptr 1;
   new_Subscription 3 7 ETH_USD 102 1].


(** ** More ways to read event lists *)

(** The error query of [processLastError]: one per error report. *)
Definition is_error_query (e : Event) : bool :=
  match e with EvGetLastError _ _ _ => true | _ => false end.

Definition is_teardown_call (e : Event) : bool :=
  is_remove_symbol e || is_detach_listener e || is_close_subscription e.

(** The handles [dxf_create_subscription] left in [&handle], and the handles
    [dxf_close_subscription] was called on, in call order. *)
Definition created_handles (evs : list Event) : list dxf_subscription_t :=
  omap (fun e => match e with EvCreateSubscription _ _ _ h => Some h | _ => None end)
       evs.

Definition closed_handles (evs : list Event) : list dxf_subscription_t :=
  omap (fun e => match e with EvCloseSubscription h _ => Some h | _ => None end) evs.

(** A teardown call on the handle [h], with the symbol [sym] when it passes
    one; any event that is no teardown call. *)
Definition teardown_on (h : dxf_subscription_t) (sym : dxf_const_string_t)
           (e : Event) : Prop :=
  match e with
  | EvRemoveSymbol h' s _ => h' = h /\ s = sym
  | EvDetachListener h' _ _ => h' = h
  | EvCloseSubscription h' _ => h' = h
  | _ => True
  end.

(** The three outcomes of an error query as the specification names them:
    no stored error, a stored error with its code and description, and a
    query that failed. *)
Inductive ErrorOutcome : Type :=
| NoStoredError
| StoredError (code : Z) (descr : dxf_const_string_t)
| ErrorSubsystemUnavailable.

(** The static local [l] of [getListener], one for each instantiation of
    the template: empty until the first call of [getListener] in that
    instantiation. *)
Definition Statics : Type := N -> option ListenerPtrType.

Definition no_statics : Statics := fun _ => None.

(** A call of [Subscription<id>::getListener()] with the static local
    written out: the first call initialises [l] with the function of the
    lambda, every call returns [l]. *)
Definition getListener_call (id : N) (st : Statics) : ListenerPtrType * Statics :=
  match st id with
  | Some l => (l, st)
  | None =>
      let l := lambda_of id in
      (l, fun i => if (i =? id)%N then Some l else st i)
  end.

(** Calls of [getListener] one after the other, in the instantiations
    [ids]: the pointers they return. *)
Fixpoint getListener_calls (ids : list N) (st : Statics) : list ListenerPtrType :=
  match ids with
  | [] => []
  | id :: ids' =>
      let '(l, st') := getListener_call id st in
      l :: getListener_calls ids' st'
  end.

Section CallResults.
Context {hdr : DXFeedH}.

(** The outcome that the answer of [dxf_get_last_error] stands for. *)
Definition error_outcome (res : ERRORCODE) (code : Z) (descr : dxf_const_string_t)
  : ErrorOutcome :=
  if res =? DXF_SUCCESS then
    if code =? dx_ec_success then NoStoredError else StoredError code descr
  else ErrorSubsystemUnavailable.

Definition teardown_call_failed (e : Event) : bool :=
  match e with
  | EvRemoveSymbol _ _ res => res =? DXF_FAILURE
  | EvDetachListener _ _ res => res =? DXF_FAILURE
  | EvCloseSubscription _ res => res =? DXF_FAILURE
  | _ => false
  end.

(** A subscription call that returned [DXF_SUCCESS], with a handle that is
    not null when it is [dxf_create_subscription]; any other event. *)
Definition call_ok (e : Event) : bool :=
  match e with
  | EvCreateSubscription _ _ res h => (res =? DXF_SUCCESS) && negb (h =? nullptr)
  | EvAttachListener _ _ _ res => res =? DXF_SUCCESS
  | EvAddSymbol _ _ res => res =? DXF_SUCCESS
  | EvRemoveSymbol _ _ res => res =? DXF_SUCCESS
  | EvDetachListener _ _ res => res =? DXF_SUCCESS
  | EvCloseSubscription _ res => res =? DXF_SUCCESS
  | _ => true
  end.
End CallResults.

(** The handles of the subscriptions of a list that are not null. *)
Definition open_handles (subs : list Subscription) : list dxf_subscription_t :=
  List.filter (fun h => negb (h =? nullptr)) (map handle subs).

(** *** Locks *)

Definition Mutex_eqb (a b : Mutex) : bool :=
  match a, b with
  | ioMutex, ioMutex => true
  | sub_mutex i, sub_mutex j => (i =? j)%N
  | _, _ => false
  end.

Definition holds_ioMutex (held : list Mutex) : bool :=
  existsb (Mutex_eqb ioMutex) held.

(** The locks held after [evs], starting with [held] (the last one taken
    first), or nothing when [evs] breaks the discipline: a mutex is released
    other than the last one taken, the mutex of a subscription is taken while
    [ioMutex] is held, or a subscription call is made while [ioMutex] is
    held. *)
Fixpoint lock_run (held : list Mutex) (evs : list Event) : option (list Mutex) :=
  match evs with
  | [] => Some held
  | EvLock m :: evs' =>
      match m with
      | sub_mutex _ => if holds_ioMutex held then None else lock_run (m :: held) evs'
      | ioMutex => lock_run (m :: held) evs'
      end
  | EvUnlock m :: evs' =>
      match held with
      | m' :: held' => if Mutex_eqb m m' then lock_run held' evs' else None
      | [] => None
      end
  | e :: evs' =>
      if is_facade_call e && holds_ioMutex held then None else lock_run held evs'
  end.

(** *** Teardown calls and the released handle *)

(** Whether [dxf_close_subscription] has been called after [evs], starting
    from [closed], or nothing when [evs] calls [dxf_close_subscription] a
    second time or makes another teardown call after it. *)
Fixpoint teardown_scan (closed : bool) (evs : list Event) : option bool :=
  match evs with
  | [] => Some closed
  | e :: evs' =>
      if is_teardown_call e then
        if closed then None
        else teardown_scan (is_close_subscription e) evs'
      else teardown_scan closed evs'
  end.

(** *** Quotes *)

Definition with_ask (price size : Z) (q : dxf_quote_t) : dxf_quote_t :=
  {| bid_time := bid_time q; bid_exchange_code := bid_exchange_code q;
     bid_price := bid_price q; bid_size := bid_size q;
     ask_time := ask_time q; ask_exchange_code := ask_exchange_code q;
     ask_price := price; ask_size := size; scope := scope q |}.

(** * Properties *)

(** ** Running the monad *)

Section MonadFacts.
Context {T : Type}.

Lemma result_bind {A B} (m : M T A) (k : A -> M T B) t :
  result (bind m k t) = result (k (result (m t)) (state_after (m t))).
Proof.
  unfold bind. destruct (m t) as [[a t1] e1]. cbn.
  now destruct (k a t1) as [[b t2] e2].
Qed.

Lemma state_after_bind {A B} (m : M T A) (k : A -> M T B) t :
  state_after (bind m k t) = state_after (k (result (m t)) (state_after (m t))).
Proof.
  unfold bind. destruct (m t) as [[a t1] e1]. cbn.
  now destruct (k a t1) as [[b t2] e2].
Qed.

Lemma events_bind {A B} (m : M T A) (k : A -> M T B) t :
  events (bind m k t) =
  events (m t) ++ events (k (result (m t)) (state_after (m t))).
Proof.
  unfold bind. destruct (m t) as [[a t1] e1]. cbn.
  now destruct (k a t1) as [[b t2] e2].
Qed.
End MonadFacts.

Lemma protocol_app (e1 e2 : list Event) :
  protocol (e1 ++ e2) = protocol e1 ++ protocol e2.
Proof. apply List.filter_app. Qed.

Lemma protocol_wcout (items : list wostream_item) :
  protocol (map EvWcout items) = [].
Proof. induction items as [|i items IH]; [reflexivity | exact IH]. Qed.

Lemma facade_call_not_diagnostic (e : Event) :
  is_facade_call e = true -> is_diagnostic e = false.
Proof. now destruct e as [[]|[]| | | | | | | | |]. Qed.

Lemma sub_lock_not_diagnostic (e : Event) :
  is_sub_lock e = true -> is_diagnostic e = false.
Proof. now destruct e as [[]|[]| | | | | | | | |]. Qed.

Lemma in_protocol (e : Event) (evs : list Event) :
  In e evs -> is_diagnostic e = false -> In e (protocol evs).
Proof.
  intros Hin Hd. apply List.filter_In. split; [exact Hin | now rewrite Hd].
Qed.

Lemma protocol_in (e : Event) (evs : list Event) :
  In e (protocol evs) -> In e evs.
Proof. intros Hin. now apply List.filter_In in Hin. Qed.

(** Counting calls sees the protocol events only. *)
Lemma filter_protocol (p : Event -> bool) (evs : list Event) :
  (forall e, p e = true -> is_diagnostic e = false) ->
  List.filter p (protocol evs) = List.filter p evs.
Proof.
  intros Hp. induction evs as [|e evs IH]; [reflexivity|].
  unfold protocol in *. cbn. destruct (is_diagnostic e) eqn:Hd; cbn.
  - destruct (p e) eqn:Hpe; [|exact IH].
    apply Hp in Hpe. congruence.
  - now rewrite IH.
Qed.

(** ** The diagnostic helpers *)

Section ProgramFacts.
Context {T : Type} {api : DXFeed T} {hdr : DXFeedH}.

Lemma log_run (l : LogLine) (t : T) :
  log l t = (tt, t, [EvLock ioMutex; EvPrint l; EvUnlock ioMutex]).
Proof. reflexivity. Qed.

Lemma processLastError_protocol (t : T) :
  protocol (events (processLastError t)) = [].
Proof.
  unfold processLastError, get_last_error, bind, emit.
  destruct (dxf_get_last_error t) as [[[res code] descr] t'].
  destruct (res =? DXF_SUCCESS); [destruct (code =? dx_ec_success)|];
    cbn [events snd wcout]; rewrite !protocol_app, protocol_wcout; reflexivity.
Qed.

(** One step of symbolic execution in [Hr : r = <program> t]: name the
    answer of the next library call, decide the next test, or put the
    events of an error report aside (they carry no protocol event). *)
Ltac exec_step Hr :=
  lazymatch type of Hr with
  | context [dxf_create_subscription ?c ?e ?t] =>
      destruct (dxf_create_subscription c e t) as [[? ?] ?] eqn:?
  | context [dxf_attach_event_listener ?h ?l ?u ?t] =>
      destruct (dxf_attach_event_listener h l u t) as [? ?] eqn:?
  | context [dxf_add_symbol ?h ?s ?t] =>
      destruct (dxf_add_symbol h s t) as [? ?] eqn:?
  | context [dxf_remove_symbol ?h ?s ?t] =>
      destruct (dxf_remove_symbol h s t) as [? ?] eqn:?
  | context [dxf_detach_event_listener ?h ?l ?t] =>
      destruct (dxf_detach_event_listener h l t) as [? ?] eqn:?
  | context [dxf_close_subscription ?h ?t] =>
      destruct (dxf_close_subscription h t) as [? ?] eqn:?
  | context [processLastError ?t] =>
      let HP := fresh "HP" in
      pose proof (processLastError_protocol t) as HP;
      destruct (processLastError t) as [[[] ?] ?];
      cbn [events snd] in HP
  | context [Z.eqb ?a ?b] =>
      let E := fresh "E" in
      destruct (Z.eqb_spec a b) as [E|E]; [try subst a|]
  end;
  cbv beta iota zeta in Hr.

Ltac exec Hr :=
  cbv [Subscription_ctor CloseImpl Close Subscription_dtor
       create_subscription attach_event_listener add_symbol remove_symbol
       detach_event_listener close_subscription log bind emit ret] in Hr;
  cbn [set_handle set_errorCode handle errorCode sub_id connection symbol] in Hr;
  repeat exec_step Hr.

Lemma set_errorCode_twice (a b : ERRORCODE) (this : Subscription) :
  set_errorCode a (set_errorCode b this) = set_errorCode a this.
Proof. reflexivity. Qed.

Ltac protocol_events :=
  cbn [result state_after events fst snd];
  rewrite ?set_errorCode_twice;
  repeat (rewrite protocol_app);
  repeat match goal with HP : protocol _ = [] |- _ => rewrite HP end;
  cbn [protocol List.filter is_diagnostic negb app].

(** ** The cases cover the code *)

Lemma Subscription_ctor_spec id c sym (t : T) :
  ctor_outcome id c sym t (result (Subscription_ctor id c sym t))
               (protocol (events (Subscription_ctor id c sym t))).
Proof.
  remember (Subscription_ctor id c sym t) as r eqn:Hr.
  exec Hr; subst r; protocol_events; solve [econstructor; eassumption].
Qed.

Lemma CloseImpl_spec (this : Subscription) (t : T) :
  CloseImpl_outcome this t (result (CloseImpl this t))
                    (protocol (events (CloseImpl this t))).
Proof.
  remember (CloseImpl this t) as r eqn:Hr.
  unfold CloseImpl in Hr.
  destruct (teardown_guard this) eqn:G.
  - exec Hr; subst r; protocol_events; solve [econstructor; eassumption].
  - subst r. now constructor.
Qed.

(** ** Skipped teardown *)

Lemma guard_null (this : Subscription) :
  handle this = nullptr -> teardown_guard this = false.
Proof. intros E. unfold teardown_guard. now rewrite E. Qed.

Lemma guard_failed (this : Subscription) :
  DXF_SUCCESS <> DXF_FAILURE ->
  errorCode this = DXF_FAILURE -> teardown_guard this = false.
Proof.
  intros Hne E. unfold teardown_guard. rewrite E.
  destruct (Z.eqb_spec DXF_FAILURE DXF_SUCCESS); [congruence|].
  apply andb_false_r.
Qed.

Lemma CloseImpl_skipped (this : Subscription) (t : T) :
  teardown_guard this = false -> CloseImpl this t = (this, t, []).
Proof. intros G. unfold CloseImpl. now rewrite G. Qed.

Lemma Close_run (this : Subscription) (t : T) :
  Close this t =
  (result (CloseImpl this t), state_after (CloseImpl this t),
   EvLock (sub_mutex (sub_id this)) :: events (CloseImpl this t)
     ++ [EvUnlock (sub_mutex (sub_id this))]).
Proof.
  unfold Close, bind, emit, ret.
  destruct (CloseImpl this t) as [[s t1] e]. cbn.
  reflexivity.
Qed.

Lemma Close_skipped (this : Subscription) (t : T) :
  teardown_guard this = false ->
  Close this t =
  (this, t, [EvLock (sub_mutex (sub_id this)); EvUnlock (sub_mutex (sub_id this))]).
Proof. intros G. rewrite Close_run, CloseImpl_skipped by exact G. reflexivity. Qed.

Lemma count_protocol (p : Event -> bool) (evs : list Event) :
  (forall e, p e = true -> is_diagnostic e = false) ->
  count p evs = count p (protocol evs).
Proof. intros Hp. unfold count. now rewrite filter_protocol. Qed.

Lemma setup_call_not_diagnostic (p : Event -> bool) :
  p = is_attach_listener \/ p = is_add_symbol \/ p = is_create_subscription \/
  p = is_remove_symbol \/ p = is_detach_listener \/ p = is_close_subscription ->
  forall e, p e = true -> is_diagnostic e = false.
Proof.
  intros Hp e He. apply facade_call_not_diagnostic. unfold is_facade_call.
  destruct Hp as [->|[->|[->|[->|[->| ->]]]]]; rewrite He;
    rewrite ?orb_true_r; reflexivity.
Qed.

(** ** Setup *)

(** C5. Fail-fast setup: when the attach call of the constructor returns
    [DXF_FAILURE], [dxf_add_symbol] is not called and the subscription holds
    [DXF_FAILURE] as its error code; when the create call returns
    [DXF_FAILURE], neither [dxf_attach_event_listener] nor [dxf_add_symbol]
    is called (and the error code is [DXF_FAILURE] as well). *)
Theorem fail_fast_setup id c sym (t : T) h l u c' et h' :
  let r := Subscription_ctor id c sym t in
  (In (EvAttachListener h l u DXF_FAILURE) (events r) ->
   count is_add_symbol (events r) = 0%nat /\
   errorCode (result r) = DXF_FAILURE) /\
  (In (EvCreateSubscription c' et DXF_FAILURE h') (events r) ->
   count is_attach_listener (events r) = 0%nat /\
   count is_add_symbol (events r) = 0%nat /\
   errorCode (result r) = DXF_FAILURE).
Proof.
  intros r. subst r.
  rewrite (count_protocol is_add_symbol), (count_protocol is_attach_listener)
    by (apply setup_call_not_diagnostic; tauto).
  pose proof (Subscription_ctor_spec id c sym t) as S.
  split; intros Hin; apply in_protocol in Hin; try reflexivity;
    destruct S; cbn in Hin |- *; intuition (try discriminate);
    match goal with Heq : _ = _ :> Event |- _ => inversion Heq; congruence end.
Qed.

Lemma Subscription_ctor_id id c sym (t : T) :
  sub_id (result (Subscription_ctor id c sym t)) = id.
Proof. destruct (Subscription_ctor_spec id c sym t); reflexivity. Qed.

Lemma setup_failure_recorded id c sym (t : T) e :
  In e (events (Subscription_ctor id c sym t)) ->
  setup_call_failed e = true ->
  errorCode (result (Subscription_ctor id c sym t)) = DXF_FAILURE.
Proof.
  intros Hin Hf. apply in_protocol in Hin.
  - destruct (Subscription_ctor_spec id c sym t); cbn in Hin |- *;
      intuition subst; cbn in Hf; try discriminate;
      repeat match goal with
             | Hq : (_ =? _) = true |- _ => apply Z.eqb_eq in Hq
             end; congruence.
  - now destruct e as [[]|[]| | | | | | | | |].
Qed.

(** C2 (as the code has it). After a setup that aborted partway (one of its
    calls returned [DXF_FAILURE]) the error code is [DXF_FAILURE] and [Close]
    only takes and releases the lock of the subscription: no call into the
    library is made, the handle, null or not, is not released, and the object
    and the library are left as they were. *)
Theorem close_after_aborted_setup id c sym (t : T) e :
  DXF_SUCCESS <> DXF_FAILURE ->
  let r := Subscription_ctor id c sym t in
  In e (events r) -> setup_call_failed e = true ->
  errorCode (result r) = DXF_FAILURE /\
  Close (result r) (state_after r) =
  (result r, state_after r, [EvLock (sub_mutex id); EvUnlock (sub_mutex id)]).
Proof.
  intros Hne r Hin Hf.
  assert (E : errorCode (result r) = DXF_FAILURE)
    by (eapply setup_failure_recorded; eassumption).
  split; [exact E|].
  rewrite Close_skipped by (apply guard_failed; assumption).
  subst r. now rewrite Subscription_ctor_id.
Qed.

(** ** The error report *)

Lemma wcout_items_wcout (items : list wostream_item) :
  wcout_items (map EvWcout items) = items.
Proof.
  induction items as [|i items IH]; [reflexivity|].
  cbn. unfold wcout_items in IH. now rewrite IH.
Qed.

Lemma processLastError_events (t : T) :
  events (processLastError t) =
  [EvLock ioMutex;
   EvGetLastError (fst (fst (fst (dxf_get_last_error t))))
                  (snd (fst (fst (dxf_get_last_error t))))
                  (snd (fst (dxf_get_last_error t)))]
  ++ map EvWcout (wcout_items (events (processLastError t)))
  ++ [EvUnlock ioMutex].
Proof.
  unfold processLastError, get_last_error, bind, emit.
  destruct (dxf_get_last_error t) as [[[res code] descr] t'].
  destruct (res =? DXF_SUCCESS); [destruct (code =? dx_ec_success)|];
    reflexivity.
Qed.

(** C7. [processLastError] has three outcomes, decided by the answer of
    [dxf_get_last_error].  Under [ioMutex] it makes the query and writes one
    message, and nothing else: when the query succeeds with [dx_ec_success],
    the text that no error information is stored; when it succeeds with
    another code, the text that an error occurred, followed by that code and
    by the description between quotes; when the query does not succeed, the
    text that the error subsystem failed to initialize.  Every answer falls
    in exactly one of the three, and what is written tells which: two
    answers that lead to the same output stand for the same outcome, with
    the same code and description when an error is stored. *)
Theorem processLastError_trichotomy (t t' : T) :
  let '(res, code, descr, _) := dxf_get_last_error t in
  let '(res', code', descr', _) := dxf_get_last_error t' in
  let out := wcout_items (events (processLastError t)) in
  let out' := wcout_items (events (processLastError t')) in
  events (processLastError t) =
    [EvLock ioMutex; EvGetLastError res code descr] ++ map EvWcout out
    ++ [EvUnlock ioMutex] /\
  ((error_outcome res code descr = NoStoredError /\
    res = DXF_SUCCESS /\ code = dx_ec_success /\
    out = [put_wide (L "No error information is stored"); put_endl]) \/
   (error_outcome res code descr = StoredError code descr /\
    res = DXF_SUCCESS /\ code <> dx_ec_success /\
    out = [put_wide (L ("Error occurred and successfully retrieved:"
                        ++ String "010"%char "error code = "));
           put_int code;
           put_narrow (", description = " ++ String "034"%char EmptyString);
           put_wide descr;
           put_narrow (String "034"%char EmptyString);
           put_endl]) \/
   (error_outcome res code descr = ErrorSubsystemUnavailable /\
    res <> DXF_SUCCESS /\
    out = [put_wide
             (L "An error occurred but the error subsystem failed to initialize");
           put_endl])) /\
  (out = out' ->
   error_outcome res code descr = error_outcome res' code' descr').
Proof.
  pose proof (processLastError_events t) as Hev.
  unfold error_outcome.
  unfold processLastError, get_last_error, bind, emit in *.
  destruct (dxf_get_last_error t) as [[[res code] descr] t1].
  destruct (dxf_get_last_error t') as [[[res' code'] descr'] t1'].
  cbn [fst snd] in Hev. split; [exact Hev|]. clear Hev.
  destruct (Z.eqb_spec res DXF_SUCCESS) as [Eres|Nres];
    [destruct (Z.eqb_spec code dx_ec_success) as [Ecode|Ncode]|];
    (destruct (Z.eqb_spec res' DXF_SUCCESS) as [Eres'|Nres'];
     [destruct (Z.eqb_spec code' dx_ec_success) as [Ecode'|Ncode']|]);
    cbn [events snd wcout app];
    change (wcout_items (?a :: ?b :: ?l ++ [?c])) with (wcout_items (l ++ [c]));
    unfold wcout_items; rewrite !omap_app; fold wcout_items;
    rewrite !wcout_items_wcout, !app_nil_r;
    (split; [tauto|]); intros E; try reflexivity; try discriminate E.
  injection E as -> ->. reflexivity.
Qed.

(** ** The display helpers *)

(** C9 (as the code has it). [orderScopeToString] and [orderSideToString]
    return a string for every value of their argument.  They return the empty
    string exactly for the values that are none of the enumerators: a value
    outside the enumerators gets the empty string, there is no text saying
    unknown, and an enumerator gets one of the names, none of which is
    empty. *)
Theorem display_helpers_total (scope side : Z) :
  (exists s, orderScopeToString scope = Some s) /\
  (exists s, orderSideToString side = Some s) /\
  (orderScopeToString scope = L "" <-> ~ In scope order_scopes) /\
  (orderSideToString side = L "" <-> ~ In side order_sides) /\
  (In scope order_scopes -> In (orderScopeToString scope) order_scope_names) /\
  (In side order_sides -> In (orderSideToString side) order_side_names).
Proof.
  unfold orderScopeToString, orderSideToString, order_scopes, order_sides,
    order_scope_names, order_side_names.
  split; [|split; [|split; [|split; [|split]]]].
  - repeat match goal with |- context [Z.eqb ?a ?b] => destruct (a =? b) end;
      eexists; reflexivity.
  - repeat match goal with |- context [Z.eqb ?a ?b] => destruct (a =? b) end;
      eexists; reflexivity.
  - repeat match goal with
           | |- context [Z.eqb ?a ?b] => destruct (Z.eqb_spec a b)
           end; cbn [In]; split; intros H1; try discriminate H1;
      try reflexivity; try (intros Hin; intuition congruence);
      exfalso; apply H1; auto.
  - repeat match goal with
           | |- context [Z.eqb ?a ?b] => destruct (Z.eqb_spec a b)
           end; cbn [In]; split; intros H1; try discriminate H1;
      try reflexivity; try (intros Hin; intuition congruence);
      exfalso; apply H1; auto.
  - repeat match goal with
           | |- context [Z.eqb ?a ?b] => destruct (Z.eqb_spec a b)
           end; cbn [In]; intros Hin; auto 6; exfalso; intuition congruence.
  - repeat match goal with
           | |- context [Z.eqb ?a ?b] => destruct (Z.eqb_spec a b)
           end; cbn [In]; intros Hin; auto 6; exfalso; intuition congruence.
Qed.

(** ** Teardown *)

Lemma count_app (p : Event -> bool) (e1 e2 : list Event) :
  count p (e1 ++ e2) = (count p e1 + count p e2)%nat.
Proof. unfold count. now rewrite List.filter_app, length_app. Qed.

Lemma existsb_protocol (p : Event -> bool) (evs : list Event) :
  (forall e, p e = true -> is_diagnostic e = false) ->
  existsb p evs = existsb p (protocol evs).
Proof.
  intros Hp. induction evs as [|e evs IH]; [reflexivity|].
  unfold protocol in *. cbn. destruct (is_diagnostic e) eqn:Hd; cbn.
  - destruct (p e) eqn:Hpe; [|exact IH].
    apply Hp in Hpe. congruence.
  - now rewrite IH.
Qed.

Lemma CloseImpl_id (this : Subscription) (t : T) :
  sub_id (result (CloseImpl this t)) = sub_id this.
Proof. destruct (CloseImpl_spec this t); reflexivity. Qed.

(** [CloseImpl] either calls [dxf_close_subscription] and clears the handle,
    which was not null, or does not call it and keeps the handle. *)
Lemma CloseImpl_handle (this : Subscription) (t : T) :
  let r := CloseImpl this t in
  (existsb is_close_subscription (events r) = true /\
   handle (result r) = nullptr /\ handle this <> nullptr) \/
  (existsb is_close_subscription (events r) = false /\
   handle (result r) = handle this).
Proof.
  intros r. subst r.
  rewrite (existsb_protocol is_close_subscription)
    by (apply setup_call_not_diagnostic; tauto).
  destruct (CloseImpl_spec this t) as [G|t1 G|r1 t1 t2 G|r1 t1 r2 t2 r3 t3 G];
    cbn [existsb is_close_subscription orb handle set_handle set_errorCode];
    try (right; split; reflexivity).
  left. repeat split. intros E. now rewrite (guard_null this E) in G.
Qed.

Lemma CloseImpl_no_sub_lock (this : Subscription) (t : T) :
  count is_sub_lock (events (CloseImpl this t)) = 0%nat.
Proof.
  rewrite (count_protocol is_sub_lock) by exact sub_lock_not_diagnostic.
  destruct (CloseImpl_spec this t); reflexivity.
Qed.

Lemma destroy_each_no_sub_lock (subs : list Subscription) (t : T) :
  count is_sub_lock (events (destroy_each subs t)) = 0%nat.
Proof.
  revert t. induction subs as [|s subs IH]; intros t; [reflexivity|].
  cbn [destroy_each]. rewrite events_bind, count_app.
  unfold Subscription_dtor at 1. rewrite CloseImpl_no_sub_lock.
  rewrite events_bind, count_app, IH. reflexivity.
Qed.

(** C4 (as the code has it). The destructor runs [CloseImpl] and nothing
    else, and so does the release of the vector for each element; [Close]
    runs the same [CloseImpl], from the same object and library state and
    with the same result, between taking and releasing the lock of the
    subscription.  The destructor and the release of the vector never take
    that lock. *)
Theorem teardown_paths (this : Subscription) order (subs : list Subscription)
        (t : T) :
  let r := CloseImpl this t in
  Subscription_dtor this t = r /\
  Close this t =
  (result r, state_after r,
   EvLock (sub_mutex (sub_id this)) :: events r
     ++ [EvUnlock (sub_mutex (sub_id this))]) /\
  count is_sub_lock (events (Subscription_dtor this t)) = 0%nat /\
  count is_sub_lock (events (vector_dtor order subs t)) = 0%nat.
Proof.
  intros r. repeat split.
  - apply Close_run.
  - apply CloseImpl_no_sub_lock.
  - apply destroy_each_no_sub_lock.
Qed.

(** *** Repeated [Close] *)

Lemma app_nil_r_facade (m : Mutex) (n : nat) (evs : list Event) :
  evs ++ List.filter is_facade_call (concat (repeat [EvLock m; EvUnlock m] n))
  = evs.
Proof.
  induction n as [|n IH]; cbn; [apply app_nil_r | exact IH].
Qed.

Lemma Close_times_skipped (n : nat) (this : Subscription) (t : T) :
  teardown_guard this = false ->
  result (Close_times n this t) = this /\
  state_after (Close_times n this t) = t /\
  protocol (events (Close_times n this t)) =
  concat (repeat [EvLock (sub_mutex (sub_id this));
                  EvUnlock (sub_mutex (sub_id this))] n).
Proof.
  intros G. induction n as [|n IH]; [now cbn|].
  cbn [Close_times]. rewrite result_bind, state_after_bind, events_bind.
  rewrite (Close_skipped this t G). cbn [result state_after events fst snd].
  destruct IH as (-> & -> & IH). rewrite protocol_app, IH. now cbn.
Qed.

(** What [Close] leaves when the detach call does not fail: an object on
    which [CloseImpl] does nothing. *)
Lemma Close_settles (this : Subscription) (t : T) :
  DXF_SUCCESS <> DXF_FAILURE ->
  (forall h l, ~ In (EvDetachListener h l DXF_FAILURE) (events (Close this t))) ->
  teardown_guard (result (Close this t)) = false.
Proof.
  intros Hne Hd. rewrite Close_run in Hd |- *.
  cbn [result events fst snd] in Hd |- *.
  assert (Hp : ~ In (EvDetachListener (handle this) (getListener (sub_id this))
                                      DXF_FAILURE)
                    (protocol (events (CloseImpl this t)))).
  { intros Hin. apply protocol_in in Hin. eapply Hd. right.
    apply in_or_app. left. exact Hin. }
  destruct (CloseImpl_spec this t) as [G|t1 G E1|r1 t1 t2 G E1 N1 E2
                                       |r1 t1 r2 t2 r3 t3 G].
  - exact G.
  - now apply guard_failed.
  - exfalso. apply Hp. right. now left.
  - now apply guard_null.
Qed.

(** Unless the detach call of the first [Close] fails, [n >= 1] calls of
    [Close] make the calls of the first one and no other. *)
Lemma Close_times_once (n : nat) (this : Subscription) (t : T) :
  DXF_SUCCESS <> DXF_FAILURE ->
  (forall h l, ~ In (EvDetachListener h l DXF_FAILURE) (events (Close this t))) ->
  List.filter is_facade_call (events (Close_times (S n) this t)) =
  List.filter is_facade_call (events (Close this t)).
Proof.
  intros Hne Hd. cbn [Close_times]. rewrite events_bind, List.filter_app.
  destruct (Close_times_skipped n _ (state_after (Close this t))
              (Close_settles this t Hne Hd)) as (_ & _ & Hev).
  rewrite <- (filter_protocol is_facade_call (events (Close_times n _ _)))
    by exact facade_call_not_diagnostic.
  rewrite Hev, app_nil_r_facade. reflexivity.
Qed.

(** *** Failing teardown steps *)

Lemma Close_result (this : Subscription) (t : T) :
  result (Close this t) = result (CloseImpl this t) /\
  state_after (Close this t) = state_after (CloseImpl this t).
Proof. now rewrite Close_run. Qed.

Lemma Close_in (e : Event) (this : Subscription) (t : T) :
  is_facade_call e = true ->
  In e (events (Close this t)) ->
  In e (protocol (events (CloseImpl this t))).
Proof.
  intros Hf Hin. rewrite Close_run in Hin. cbn [events snd] in Hin.
  destruct Hin as [<-|Hin]; [discriminate|].
  apply in_app_or in Hin. destruct Hin as [Hin|[<-|[]]]; [|discriminate].
  apply in_protocol; [exact Hin|]. now apply facade_call_not_diagnostic.
Qed.

Lemma Close_count (p : Event -> bool) (this : Subscription) (t : T) :
  (forall e, p e = true -> is_facade_call e = true) ->
  count p (events (Close this t)) = count p (protocol (events (CloseImpl this t))).
Proof.
  intros Hp. rewrite Close_run. cbn [events snd].
  change (?a :: ?l ++ ?b) with ([a] ++ l ++ b). rewrite !count_app.
  rewrite <- (count_protocol p (events (CloseImpl this t)))
    by (intros e He; now apply facade_call_not_diagnostic, Hp).
  unfold count at 1 3. cbn [List.filter].
  destruct (p (EvLock (sub_mutex (sub_id this)))) eqn:E1;
    [apply Hp in E1; discriminate|].
  destruct (p (EvUnlock (sub_mutex (sub_id this)))) eqn:E2;
    [apply Hp in E2; discriminate|].
  cbn. lia.
Qed.

Lemma facade_kinds (p : Event -> bool) :
  p = is_attach_listener \/ p = is_add_symbol \/ p = is_create_subscription \/
  p = is_remove_symbol \/ p = is_detach_listener \/ p = is_close_subscription ->
  forall e, p e = true -> is_facade_call e = true.
Proof.
  intros Hp e He. unfold is_facade_call.
  destruct Hp as [->|[->|[->|[->|[->| ->]]]]]; rewrite He;
    rewrite ?orb_true_r; reflexivity.
Qed.

(** C3 (as the code has it). On an active subscription a failing teardown
    step ends the teardown before any later step.  A failing
    [dxf_remove_symbol] or [dxf_close_subscription] leaves [DXF_FAILURE] as
    the error code, and the next [Close] makes no call.  After a failing
    [dxf_remove_symbol] or [dxf_detach_event_listener] the handle is the one
    it was, not null; after a failing [dxf_close_subscription] the handle is
    null. *)
Theorem teardown_failure (this : Subscription) (t : T) h s l :
  DXF_SUCCESS <> DXF_FAILURE ->
  teardown_guard this = true ->
  let r := Close this t in
  let idle := [EvLock (sub_mutex (sub_id this));
               EvUnlock (sub_mutex (sub_id this))] in
  (In (EvRemoveSymbol h s DXF_FAILURE) (events r) ->
   count is_detach_listener (events r) = 0%nat /\
   count is_close_subscription (events r) = 0%nat /\
   errorCode (result r) = DXF_FAILURE /\
   handle (result r) = handle this /\ handle this <> nullptr /\
   Close (result r) (state_after r) = (result r, state_after r, idle)) /\
  (In (EvDetachListener h l DXF_FAILURE) (events r) ->
   count is_close_subscription (events r) = 0%nat /\
   handle (result r) = handle this /\ handle this <> nullptr) /\
  (In (EvCloseSubscription h DXF_FAILURE) (events r) ->
   errorCode (result r) = DXF_FAILURE /\
   handle (result r) = nullptr /\
   Close (result r) (state_after r) = (result r, state_after r, idle)).
Proof.
  intros Hne G r idle. subst r idle.
  assert (Hh : handle this <> nullptr)
    by (intros E; now rewrite (guard_null this E) in G).
  rewrite !(Close_count is_detach_listener), !(Close_count is_close_subscription)
    by (apply facade_kinds; tauto).
  destruct (Close_result this t) as [-> ->].
  rewrite <- (CloseImpl_id this t).
  split; [|split]; intros Hin; apply Close_in in Hin; try reflexivity;
    revert Hin;
    (destruct (CloseImpl_spec this t) as [G'|t1 G' E1|r1 t1 t2 G' E1 N1 E2
                                          |r1 t1 r2 t2 r3 t3 G' E1 N1 E2 N2 E3]);
    cbn [In]; intros Hin;
    repeat match goal with
           | Hor : _ \/ _ |- _ => destruct Hor
           | Hf : False |- _ => destruct Hf
           | Heq : _ = _ :> Event |- _ => inversion Heq; clear Heq; subst
           end;
    try congruence; repeat split; try assumption;
    apply Close_skipped; (apply guard_failed; [assumption|reflexivity])
                         || (apply guard_null; reflexivity).
Qed.

(** ** The listener *)

Lemma listener_use_protocol (id : N) (evs : list Event) :
  Forall (listener_use_ok id) (protocol evs) -> Forall (listener_use_ok id) evs.
Proof.
  induction evs as [|e evs IH]; intros Hp; [constructor|].
  unfold protocol in *. cbn in Hp.
  destruct (is_diagnostic e) eqn:Hd; cbn in Hp.
  - constructor; [|now apply IH].
    now destruct e as [[]|[]| | | | | | | | |].
  - inversion Hp; subst. constructor; [assumption|now apply IH].
Qed.

Lemma Subscription_ctor_listener id c sym (t : T) :
  Forall (listener_use_ok id) (events (Subscription_ctor id c sym t)).
Proof.
  apply listener_use_protocol.
  destruct (Subscription_ctor_spec id c sym t);
    repeat constructor.
Qed.

Lemma Close_listener (this : Subscription) (t : T) :
  Forall (listener_use_ok (sub_id this)) (events (Close this t)).
Proof.
  rewrite Close_run. cbn [events snd].
  constructor; [exact I|]. apply Forall_app. split; [|repeat constructor].
  apply listener_use_protocol.
  destruct (CloseImpl_spec this t); repeat constructor.
Qed.

Lemma Close_times_listener (n : nat) (this : Subscription) (t : T) :
  Forall (listener_use_ok (sub_id this)) (events (Close_times n this t)).
Proof.
  revert this t. induction n as [|n IH]; intros this t; [constructor|].
  cbn [Close_times]. rewrite events_bind. apply Forall_app. split.
  - apply Close_listener.
  - specialize (IH (result (Close this t)) (state_after (Close this t))).
    rewrite Close_run in IH at 1. cbn [result fst] in IH.
    now rewrite CloseImpl_id in IH.
Qed.

Lemma getListener_calls_pure (ids : list N) (st : Statics) :
  (forall i l, st i = Some l -> l = lambda_of i) ->
  getListener_calls ids st = map getListener ids.
Proof.
  revert st. induction ids as [|id ids IH]; intros st Hst; [reflexivity|].
  cbn [getListener_calls map]. unfold getListener_call.
  destruct (st id) as [l|] eqn:E.
  - rewrite (Hst id l E). f_equal. now apply IH.
  - cbv zeta. f_equal. apply IH. intros i l.
    destruct (N.eqb_spec i id) as [->|N]; [now intros [= <-]|apply Hst].
Qed.

Lemma Subscription_ctor_attach id c sym (t : T) h l u res :
  In (EvAttachListener h l u res) (events (Subscription_ctor id c sym t)) ->
  h = handle (result (Subscription_ctor id c sym t)) /\
  l = getListener id /\ u = id.
Proof.
  intros Hin. apply in_protocol in Hin; [|reflexivity]. revert Hin.
  destruct (Subscription_ctor_spec id c sym t); cbn [In]; intros Hin;
    repeat match goal with
           | Hor : _ \/ _ |- _ => destruct Hor
           | Hf : False |- _ => destruct Hf
           | Heq : _ = _ :> Event |- _ => inversion Heq; clear Heq; subst
           end; repeat split.
Qed.

Lemma Subscription_ctor_attaches id c sym (t : T) :
  (forall c' et h',
      ~ In (EvCreateSubscription c' et DXF_FAILURE h')
           (events (Subscription_ctor id c sym t))) ->
  exists res,
    List.filter is_attach_listener (events (Subscription_ctor id c sym t)) =
    [EvAttachListener (handle (result (Subscription_ctor id c sym t)))
                      (getListener id) id res].
Proof.
  intros Hc.
  assert (Hp : forall c' et h',
             ~ In (EvCreateSubscription c' et DXF_FAILURE h')
                  (protocol (events (Subscription_ctor id c sym t)))).
  { intros c' et h' Hin. apply protocol_in in Hin. exact (Hc _ _ _ Hin). }
  rewrite <- (filter_protocol is_attach_listener)
    by (apply setup_call_not_diagnostic; tauto).
  revert Hp.
  destruct (Subscription_ctor_spec id c sym t) as [h t1 E1|r1 h t1 t2 E1 N1 E2
                                                   |r1 h t1 r2 t2 r3 t3 E1];
    intros Hp.
  - exfalso. apply (Hp c DXF_ET_QUOTE h). now left.
  - now exists DXF_FAILURE.
  - now exists r2.
Qed.

(** A [Close] that passes the guard and whose remove call does not fail
    detaches the listener of the subscription from its handle. *)
Lemma Close_detaches (this : Subscription) (t : T) :
  teardown_guard this = true ->
  (forall h s, ~ In (EvRemoveSymbol h s DXF_FAILURE) (events (Close this t))) ->
  exists res,
    In (EvDetachListener (handle this) (getListener (sub_id this)) res)
       (events (Close this t)).
Proof.
  intros G Hr.
  assert (Hp : forall h s,
             ~ In (EvRemoveSymbol h s DXF_FAILURE)
                  (protocol (events (CloseImpl this t)))).
  { intros h s Hin. apply protocol_in in Hin. apply (Hr h s).
    rewrite Close_run. cbn [events snd]. right. apply in_or_app. now left. }
  assert (Hd : exists res,
             In (EvDetachListener (handle this) (getListener (sub_id this)) res)
                (protocol (events (CloseImpl this t)))).
  { revert Hp.
    destruct (CloseImpl_spec this t) as [G'|t1 G'|r1 t1 t2 G'|r1 t1 r2 t2 r3 t3 G'];
      intros Hp.
    - congruence.
    - exfalso. apply (Hp (handle this) (symbol this)). now left.
    - exists DXF_FAILURE. right. now left.
    - exists r2. right. now left. }
  destruct Hd as (res & Hin). exists res. apply protocol_in in Hin.
  rewrite Close_run. cbn [events snd]. right. apply in_or_app. now left.
Qed.

(** C10. The listener of a subscription.  Every call of [getListener] in an
    instantiation returns the same pointer, the one static local of that
    instantiation, whatever calls came before.  The constructor, unless its
    create call fails, attaches that pointer once, to the handle it got,
    with [id] as user data; through the construction and any number of
    calls of [Close], no attach passes another pointer or other user data
    and no detach passes another pointer.  The detach is made with what was
    attached: when the setup succeeded and the remove call does not fail,
    [Close] calls [dxf_detach_event_listener] with the handle and the
    pointer of the attach call.  Subscriptions with different [id] register
    different pointers and different user data. *)
Theorem listener_round_trip id id' c c' sym sym' (n : nat) (ids : list N)
        (t t' : T) :
  let r0 := Subscription_ctor id c sym t in
  let r := Close_times (S n) (result r0) (state_after r0) in
  getListener_calls ids no_statics = map getListener ids /\
  ((forall c1 et h1, ~ In (EvCreateSubscription c1 et DXF_FAILURE h1) (events r0)) ->
   exists res,
     List.filter is_attach_listener (events r0) =
     [EvAttachListener (handle (result r0)) (getListener id) id res]) /\
  (forall h l u res,
      In (EvAttachListener h l u res) (events r0 ++ events r) ->
      l = getListener id /\ u = id) /\
  (forall h l res,
      In (EvDetachListener h l res) (events r0 ++ events r) ->
      l = getListener id) /\
  (forall h l u res,
      In (EvAttachListener h l u res) (events r0) ->
      teardown_guard (result r0) = true ->
      (forall h1 s, ~ In (EvRemoveSymbol h1 s DXF_FAILURE) (events r)) ->
      exists res', In (EvDetachListener h l res') (events r)) /\
  (forall h l u res h2 l2 u2 res2,
      In (EvAttachListener h l u res) (events r0) ->
      In (EvAttachListener h2 l2 u2 res2)
         (events (Subscription_ctor id' c' sym' t')) ->
      id' <> id -> l2 <> l /\ u2 <> u).
Proof.
  intros r0 r.
  assert (Hall : Forall (listener_use_ok id) (events r0 ++ events r)).
  { subst r r0. apply Forall_app. split.
    - apply Subscription_ctor_listener.
    - rewrite <- (Subscription_ctor_id id c sym t) at 1.
      apply Close_times_listener. }
  rewrite List.Forall_forall in Hall.
  split; [|split; [|split; [|split; [|split]]]].
  - apply getListener_calls_pure. discriminate.
  - apply Subscription_ctor_attaches.
  - intros h l u res Hin. exact (Hall _ Hin).
  - intros h l res Hin. exact (Hall _ Hin).
  - intros h l u res Hin G Hr.
    destruct (Subscription_ctor_attach id c sym t h l u res Hin) as (-> & -> & ->).
    subst r. cbn [Close_times] in Hr |- *. fold r0 in Hr |- *.
    destruct (Close_detaches (result r0) (state_after r0) G) as (res' & Hd).
    + intros h1 s Hin1. apply (Hr h1 s). rewrite events_bind.
      apply in_or_app. now left.
    + exists res'. rewrite events_bind. apply in_or_app. left.
      subst r0. rewrite (Subscription_ctor_id id c sym t) in Hd. exact Hd.
  - intros h l u res h2 l2 u2 res2 Hin Hin2 Hne.
    destruct (Subscription_ctor_attach id c sym t h l u res Hin) as (_ & -> & ->).
    destruct (Subscription_ctor_attach id' c' sym' t' h2 l2 u2 res2 Hin2)
      as (_ & -> & ->).
    split; [|exact Hne]. intros E. apply Hne. now inversion E.
Qed.

(** ** Lifecycle *)

Lemma printTimestamp_protocol (ts : dxf_long_t) (k : dxf_const_string_t) (t : T) :
  protocol (events (printTimestamp ts k t)) = [] /\
  state_after (printTimestamp ts k t) = t.
Proof.
  unfold printTimestamp, bind, emit, ret.
  destruct (first_unit_nonzero k); cbn; split; reflexivity.
Qed.

(** A dispatched event produces output only and leaves the library alone. *)
Lemma listener_body_protocol id eventType symbolName data dataCount userData
      (t : T) :
  protocol (events (listener_body id eventType symbolName data dataCount
                                  userData t)) = [].
Proof.
  unfold listener_body.
  rewrite !events_bind, !protocol_app.
  destruct (eventType =? DXF_ET_QUOTE); [|reflexivity].
  rewrite !state_after_bind, !events_bind, !protocol_app.
  cbn [emit wcout events state_after result fst snd].
  rewrite !protocol_wcout, !(proj1 (printTimestamp_protocol _ _ _)).
  reflexivity.
Qed.

Lemma run_op_handle (op : Op) (this : Subscription) (t : T) :
  let r := run_op op this t in
  (existsb is_close_subscription (events r) = true /\
   handle (result r) = nullptr /\ handle this <> nullptr) \/
  (existsb is_close_subscription (events r) = false /\
   handle (result r) = handle this).
Proof.
  destruct op as [|eventType symbolName data dataCount|id c sym]; cbn [run_op].
  - rewrite Close_run. cbn [result events fst snd existsb is_close_subscription orb].
    rewrite existsb_app. cbn [existsb is_close_subscription]. rewrite !orb_false_r.
    apply CloseImpl_handle.
  - right. rewrite result_bind, events_bind, app_nil_r. split; [|reflexivity].
    rewrite (existsb_protocol is_close_subscription)
      by (apply setup_call_not_diagnostic; tauto).
    cbn [call_listener getListener]. now rewrite listener_body_protocol.
  - right. rewrite result_bind, events_bind, app_nil_r. split; [|reflexivity].
    rewrite (existsb_protocol is_close_subscription)
      by (apply setup_call_not_diagnostic; tauto).
    destruct (Subscription_ctor_spec id c sym t); reflexivity.
Qed.

Lemma run_op_closed (op : Op) (this : Subscription) (t : T) :
  handle this = nullptr -> result (run_op op this t) = this.
Proof.
  intros E. destruct op; cbn [run_op].
  - now rewrite Close_skipped by now apply guard_null.
  - now rewrite result_bind.
  - now rewrite result_bind.
Qed.

Lemma run_ops_closed (ops : list Op) (this : Subscription) (t : T) :
  handle this = nullptr -> result (run_ops ops this t) = this.
Proof.
  intros E. revert t. induction ops as [|op ops IH]; intros t; [reflexivity|].
  cbn [run_ops]. rewrite result_bind, (run_op_closed op this t E). apply IH.
Qed.

Lemma run_ops_handle (ops : list Op) (this : Subscription) (t : T) :
  let r := run_ops ops this t in
  (existsb is_close_subscription (events r) = true /\
   handle (result r) = nullptr /\ handle this <> nullptr) \/
  (existsb is_close_subscription (events r) = false /\
   handle (result r) = handle this).
Proof.
  revert this t. induction ops as [|op ops IH]; intros this t; cbn zeta.
  { right. split; reflexivity. }
  cbn [run_ops]. rewrite result_bind, events_bind, existsb_app.
  specialize (IH (result (run_op op this t)) (state_after (run_op op this t))).
  cbn zeta in IH.
  destruct (run_op_handle op this t) as [(E1 & E2 & E3)|(E1 & E2)];
    destruct IH as [(I1 & I2 & I3)|(I1 & I2)]; rewrite E1, ?I1; cbn [orb].
  - congruence.
  - left. repeat split; congruence.
  - left. repeat split; congruence.
  - right. split; congruence.
Qed.

Lemma setup_succeeded_handle id c sym (t : T) :
  DXF_SUCCESS <> DXF_FAILURE ->
  (let '(res, h, _) := dxf_create_subscription c DXF_ET_QUOTE t in
   res = DXF_SUCCESS -> h <> nullptr) ->
  setup_succeeded (events (Subscription_ctor id c sym t)) = true ->
  handle (result (Subscription_ctor id c sym t)) <> nullptr.
Proof.
  intros Hne Hlib. unfold setup_succeeded.
  rewrite (existsb_protocol create_succeeded), (existsb_protocol add_succeeded)
    by (intros [[]|[]| | | | | | | | |]; cbn; congruence).
  destruct (Subscription_ctor_spec id c sym t) as [h t1 E1|r1 h t1 t2 E1 N1 E2
                                                   |r1 h t1 r2 t2 r3 t3 E1];
    rewrite E1 in Hlib; cbn [existsb create_succeeded add_succeeded orb handle
                              new_Subscription].
  - destruct (Z.eqb_spec DXF_FAILURE DXF_SUCCESS); [congruence|discriminate].
  - rewrite andb_false_r. discriminate.
  - destruct (Z.eqb_spec r1 DXF_SUCCESS); [auto|discriminate].
Qed.

(** C6 (as the code has it). On every state a subscription reaches by its
    construction and any sequence of close, dispatch and create operations,
    when the library hands out a non-null handle if its
    [dxf_create_subscription] succeeds: an [Active] subscription has a
    non-null handle;
    a [Closed] subscription has a null handle, and whatever operations follow
    leave the object as it is and the lifecycle [Closed]. *)
Theorem lifecycle_invariant id c sym (ops more : list Op) (t : T) :
  DXF_SUCCESS <> DXF_FAILURE ->
  (let '(res, h, _) := dxf_create_subscription c DXF_ET_QUOTE t in
   res = DXF_SUCCESS -> h <> nullptr) ->
  let r0 := Subscription_ctor id c sym t in
  let r := run_ops ops (result r0) (state_after r0) in
  let r' := run_ops more (result r) (state_after r) in
  (lifecycle (events r0) (events r) = Active -> handle (result r) <> nullptr) /\
  (lifecycle (events r0) (events r) = Closed ->
   handle (result r) = nullptr /\
   result r' = result r /\
   lifecycle (events r0) (events r ++ events r') = Closed).
Proof.
  intros Hne Hlib r0 r r'. unfold lifecycle.
  pose proof (setup_succeeded_handle id c sym t Hne Hlib) as Hs. fold r0 in Hs.
  pose proof (run_ops_handle ops (result r0) (state_after r0)) as Hr.
  cbn zeta in Hr. fold r in Hr.
  destruct (setup_succeeded (events r0)); [|split; discriminate].
  specialize (Hs eq_refl). rewrite existsb_app.
  destruct Hr as [(E1 & E2 & E3)|(E1 & E2)]; rewrite E1; cbn [orb].
  - split; [discriminate|]. intros _. repeat split; [assumption|].
    subst r'. now apply run_ops_closed.
  - split; [|discriminate]. intros _. congruence.
Qed.

(** ** The vector of subscriptions *)

Lemma removed_handles_app (e1 e2 : list Event) :
  removed_handles (e1 ++ e2) = removed_handles e1 ++ removed_handles e2.
Proof. apply omap_app. Qed.

Lemma removed_handles_protocol (evs : list Event) :
  removed_handles (protocol evs) = removed_handles evs.
Proof.
  induction evs as [|e evs IH]; [reflexivity|].
  unfold protocol, removed_handles in *.
  destruct e as [[]|[]| | | | | | | | |]; cbn; now rewrite ?IH.
Qed.

(** [CloseImpl] calls [dxf_remove_symbol] for the handle exactly when its
    guard is open. *)
Lemma CloseImpl_removed (this : Subscription) (t : T) :
  removed_handles (events (CloseImpl this t)) =
  if teardown_guard this then [handle this] else [].
Proof.
  rewrite <- removed_handles_protocol.
  destruct (CloseImpl_spec this t) as [G|t1 G|r1 t1 t2 G|r1 t1 r2 t2 r3 t3 G];
    rewrite G; reflexivity.
Qed.

Lemma destroy_each_removed (subs : list Subscription) (t : T) :
  removed_handles (events (destroy_each subs t)) =
  map handle (List.filter teardown_guard subs).
Proof.
  revert t. induction subs as [|s subs IH]; intros t; [reflexivity|].
  cbn [destroy_each List.filter].
  rewrite events_bind, removed_handles_app.
  unfold Subscription_dtor at 1. rewrite CloseImpl_removed.
  rewrite events_bind, removed_handles_app, IH.
  cbn [ret events snd removed_handles omap]. rewrite app_nil_r.
  now destruct (teardown_guard s).
Qed.

(** C8 (as the code has it). The release of the vector runs the teardown of
    every element, in the order in which the vector destroys its elements:
    whatever the library answers, [dxf_remove_symbol] is called once for
    each element whose guard is open, in that order (from the first element
    to the last, or from the last to the first), so the teardown of an
    element is attempted whether or not the one of another element failed.
    [Close] on the element at a position changes no other element. *)
Theorem registry_release order (subs : list Subscription) (index : nat) (t : T) :
  removed_handles (events (vector_dtor order subs t)) =
  map handle (List.filter teardown_guard
                (match order with FrontToBack => subs | BackToFront => rev subs end))
  /\
  (forall s, In s subs -> teardown_guard s = true ->
             In (handle s) (removed_handles (events (vector_dtor order subs t))))
  /\
  (forall subs', result (closeAt index subs t) = Some subs' ->
                 length subs' = length subs /\
                 forall j, j <> index -> subs' !! j = subs !! j).
Proof.
  assert (E : removed_handles (events (vector_dtor order subs t)) =
              map handle (List.filter teardown_guard
                (match order with FrontToBack => subs | BackToFront => rev subs end)))
    by apply destroy_each_removed.
  split; [exact E|split].
  - intros s Hin G. rewrite E. apply List.in_map, List.filter_In.
    split; [|exact G].
    destruct order; [exact Hin | now apply List.in_rev in Hin].
  - intros subs'. unfold closeAt.
    destruct (subs !! index) as [s|] eqn:Es.
    + rewrite result_bind. cbn [ret result fst]. intros [= <-].
      split; [apply length_insert|].
      intros j Hj. now apply list_lookup_insert_ne.
    + discriminate.
Qed.

(** * Further properties of the program *)

(** ** Error reports *)

Lemma existsb_diagnostic (p : Event -> bool) (evs : list Event) :
  (forall e, p e = true -> is_diagnostic e = false) ->
  protocol evs = [] -> existsb p evs = false.
Proof. intros Hp E. now rewrite (existsb_protocol p evs Hp), E. Qed.

Lemma count_wcout (p : Event -> bool) (items : list wostream_item) :
  (forall i, p (EvWcout i) = false) -> count p (map EvWcout items) = 0%nat.
Proof.
  intros Hp. unfold count.
  induction items as [|i items IH]; [reflexivity|]. cbn. now rewrite Hp.
Qed.

Lemma processLastError_reports (t : T) :
  count is_error_query (events (processLastError t)) = 1%nat.
Proof.
  unfold processLastError, get_last_error, bind, emit.
  destruct (dxf_get_last_error t) as [[[res code] descr] t'].
  destruct (res =? DXF_SUCCESS); [destruct (code =? dx_ec_success)|];
    cbn [events snd wcout]; rewrite !count_app, count_wcout by reflexivity;
    reflexivity.
Qed.

Lemma lock_run_app (held : list Mutex) (e1 e2 : list Event) :
  lock_run held (e1 ++ e2) =
  match lock_run held e1 with Some held' => lock_run held' e2 | None => None end.
Proof.
  revert held. induction e1 as [|e e1 IH]; intros held; [reflexivity|].
  destruct e as [[|i]|m| | | | | | | | |]; cbn [app lock_run is_facade_call
    is_create_subscription is_attach_listener is_add_symbol is_remove_symbol
    is_detach_listener is_close_subscription orb andb];
    try apply IH;
    try (destruct (holds_ioMutex held); [reflexivity | apply IH]).
  destruct held as [|m' held]; [reflexivity|].
  destruct (Mutex_eqb m m'); [apply IH | reflexivity].
Qed.

Lemma lock_run_wcout (held : list Mutex) (items : list wostream_item) :
  lock_run held (map EvWcout items) = Some held.
Proof. induction items as [|i items IH]; [reflexivity | exact IH]. Qed.

Lemma processLastError_locks (t : T) (held : list Mutex) :
  lock_run held (events (processLastError t)) = Some held.
Proof.
  unfold processLastError, get_last_error, bind, emit.
  destruct (dxf_get_last_error t) as [[[res code] descr] t'].
  destruct (res =? DXF_SUCCESS); [destruct (code =? dx_ec_success)|];
    cbn [events snd wcout app lock_run is_facade_call is_create_subscription
         is_attach_listener is_add_symbol is_remove_symbol is_detach_listener
         is_close_subscription orb andb];
    rewrite lock_run_app, lock_run_wcout; reflexivity.
Qed.

(** As [exec_step], keeping of an error report that it carries no protocol
    event, that it holds one error query, and that it gives back the locks
    it takes. *)
Ltac exec_step_all Hr :=
  lazymatch type of Hr with
  | context [dxf_create_subscription ?c ?e ?t] =>
      destruct (dxf_create_subscription c e t) as [[? ?] ?] eqn:?
  | context [dxf_attach_event_listener ?h ?l ?u ?t] =>
      destruct (dxf_attach_event_listener h l u t) as [? ?] eqn:?
  | context [dxf_add_symbol ?h ?s ?t] =>
      destruct (dxf_add_symbol h s t) as [? ?] eqn:?
  | context [dxf_remove_symbol ?h ?s ?t] =>
      destruct (dxf_remove_symbol h s t) as [? ?] eqn:?
  | context [dxf_detach_event_listener ?h ?l ?t] =>
      destruct (dxf_detach_event_listener h l t) as [? ?] eqn:?
  | context [dxf_close_subscription ?h ?t] =>
      destruct (dxf_close_subscription h t) as [? ?] eqn:?
  | context [processLastError ?t] =>
      let HP := fresh "HP" in
      let HQ := fresh "HQ" in
      let HL := fresh "HL" in
      pose proof (processLastError_protocol t) as HP;
      pose proof (processLastError_reports t) as HQ;
      pose proof (processLastError_locks t) as HL;
      destruct (processLastError t) as [[[] ?] ?];
      cbn [events snd] in HP, HQ, HL
  | context [Z.eqb ?a ?b] =>
      let E := fresh "E" in
      destruct (Z.eqb_spec a b) as [E|E]; [try subst a|]
  end;
  cbv beta iota zeta in Hr.

Ltac exec_all Hr :=
  cbv [Subscription_ctor CloseImpl Close Subscription_dtor
       create_subscription attach_event_listener add_symbol remove_symbol
       detach_event_listener close_subscription log bind emit ret] in Hr;
  cbn [set_handle set_errorCode handle errorCode sub_id connection symbol] in Hr;
  repeat exec_step_all Hr.

Ltac decide_tests :=
  repeat match goal with
         | |- context [Z.eqb ?a ?a] => rewrite (Z.eqb_refl a)
         | N : ?a <> ?b |- context [Z.eqb ?a ?b] =>
             rewrite (proj2 (Z.eqb_neq a b) N)
         end.

Ltac count_events :=
  cbn [result state_after events fst snd];
  repeat (rewrite ?count_app, ?existsb_app);
  repeat match goal with
         | HQ : count is_error_query ?l = _ |- _ => rewrite HQ
         | HP : protocol ?l = [] |- context [existsb ?p ?l] =>
             rewrite (existsb_diagnostic p l)
               by (exact HP || (intros [[]|[]| | | | | | | | |]; cbn; congruence))
         end;
  cbn [count List.filter length existsb is_error_query setup_call_failed
       teardown_call_failed orb Nat.add];
  decide_tests.

(** X6. The constructor reports a failure of setup exactly once: it makes
    one error report (one call of [processLastError]) when one of its calls
    returned [DXF_FAILURE], and none otherwise. *)
Theorem setup_failure_reported id c sym (t : T) :
  let r := Subscription_ctor id c sym t in
  count is_error_query (events r) =
  if existsb setup_call_failed (events r) then 1%nat else 0%nat.
Proof.
  intros r. remember (Subscription_ctor id c sym t) as r0 eqn:Hr. subst r.
  exec_all Hr; subst r0; count_events; reflexivity.
Qed.

(** X7. [Close] reports a failure of teardown exactly once: it makes one
    error report when one of its calls, the detach call included, returned
    [DXF_FAILURE], and none otherwise. *)
Theorem teardown_failure_reported (this : Subscription) (t : T) :
  let r := Close this t in
  count is_error_query (events r) =
  if existsb teardown_call_failed (events r) then 1%nat else 0%nat.
Proof.
  intros r. remember (Close this t) as r0 eqn:Hr. subst r.
  unfold Close, CloseImpl in Hr.
  destruct (teardown_guard this).
  - exec_all Hr; subst r0; count_events; reflexivity.
  - subst r0. reflexivity.
Qed.

(** ** Locks *)

Ltac lock_events Hheld :=
  cbn [result state_after events fst snd];
  repeat first
    [ progress cbn [app lock_run is_facade_call is_create_subscription
                    is_attach_listener is_add_symbol is_remove_symbol
                    is_detach_listener is_close_subscription orb andb
                    Mutex_eqb]
    | rewrite Hheld
    | rewrite N.eqb_refl
    | match goal with
      | HL : forall held, lock_run held ?l = Some held |- context [lock_run _ (?l ++ _)] =>
          rewrite lock_run_app, HL
      | HL : forall held, lock_run held ?l = Some held |- context [lock_run _ ?l] =>
          rewrite HL
      end ].

Lemma Subscription_ctor_locks id c sym (t : T) (held : list Mutex) :
  holds_ioMutex held = false ->
  lock_run held (events (Subscription_ctor id c sym t)) = Some held.
Proof.
  intros Hheld. remember (Subscription_ctor id c sym t) as r eqn:Hr.
  exec_all Hr; subst r; lock_events Hheld; reflexivity.
Qed.

Lemma CloseImpl_locks (this : Subscription) (t : T) (held : list Mutex) :
  holds_ioMutex held = false ->
  lock_run held (events (CloseImpl this t)) = Some held.
Proof.
  intros Hheld. remember (CloseImpl this t) as r eqn:Hr.
  unfold CloseImpl in Hr.
  destruct (teardown_guard this).
  - exec_all Hr; subst r; lock_events Hheld; reflexivity.
  - subst r. reflexivity.
Qed.

Lemma Close_locks (this : Subscription) (t : T) (held : list Mutex) :
  holds_ioMutex held = false ->
  lock_run held (events (Close this t)) = Some held.
Proof.
  intros Hheld. rewrite Close_run. cbn [events snd lock_run]. rewrite Hheld.
  rewrite lock_run_app, CloseImpl_locks by exact Hheld.
  cbn [lock_run Mutex_eqb]. now rewrite N.eqb_refl.
Qed.

Lemma printTimestamp_locks (ts : dxf_long_t) (k : dxf_const_string_t) (t : T)
      (held : list Mutex) :
  lock_run held (events (printTimestamp ts k t)) = Some held.
Proof.
  unfold printTimestamp, bind, emit, ret.
  destruct (first_unit_nonzero k); reflexivity.
Qed.

Lemma listener_body_locks id eventType symbolName data dataCount userData
      (t : T) (held : list Mutex) :
  lock_run held (events (listener_body id eventType symbolName data dataCount
                                       userData t)) = Some held.
Proof.
  unfold listener_body.
  rewrite !events_bind.
  destruct (eventType =? DXF_ET_QUOTE).
  - rewrite !state_after_bind, !events_bind.
    cbn [emit wcout events state_after result fst snd].
    repeat first [ rewrite lock_run_app
                 | rewrite lock_run_wcout
                 | rewrite printTimestamp_locks
                 | progress cbn [lock_run app map is_facade_call
                     is_create_subscription is_attach_listener is_add_symbol
                     is_remove_symbol is_detach_listener is_close_subscription
                     orb andb Mutex_eqb] ].
    reflexivity.
  - reflexivity.
Qed.

Lemma run_ops_locks (ops : list Op) (this : Subscription) (t : T)
      (held : list Mutex) :
  holds_ioMutex held = false ->
  lock_run held (events (run_ops ops this t)) = Some held.
Proof.
  intros Hheld. revert this t.
  induction ops as [|op ops IH]; intros this t; [reflexivity|].
  cbn [run_ops]. rewrite events_bind, lock_run_app.
  assert (E : lock_run held (events (run_op op this t)) = Some held).
  { destruct op; cbn [run_op].
    - now apply Close_locks.
    - rewrite events_bind, app_nil_r. cbn [call_listener getListener].
      apply listener_body_locks.
    - rewrite events_bind, app_nil_r. now apply Subscription_ctor_locks. }
  rewrite E. apply IH.
Qed.

Lemma destroy_each_locks (subs : list Subscription) (t : T) (held : list Mutex) :
  holds_ioMutex held = false ->
  lock_run held (events (destroy_each subs t)) = Some held.
Proof.
  intros Hheld. revert t.
  induction subs as [|s subs IH]; intros t; [reflexivity|].
  cbn [destroy_each]. rewrite events_bind, lock_run_app.
  unfold Subscription_dtor at 1. rewrite CloseImpl_locks by exact Hheld.
  rewrite events_bind, lock_run_app, IH. reflexivity.
Qed.

Lemma emplace_back_locks id c sym (subs : list Subscription) (t : T)
      (held : list Mutex) :
  holds_ioMutex held = false ->
  lock_run held (events (emplace_back id c sym subs t)) = Some held.
Proof.
  intros Hheld. unfold emplace_back.
  rewrite events_bind, app_nil_r. now apply Subscription_ctor_locks.
Qed.

(** X8. Lock discipline.  Every sequence of close, dispatch and create
    operations on a subscription, the destructor, and the part of [main]
    that builds and releases the subscriptions take and release their locks
    in pairs, the last taken first, and end with no lock held; they never
    take the mutex of a subscription while holding [ioMutex], and never call
    a subscription function of the library while holding [ioMutex]. *)
Theorem lock_discipline (ops : list Op) (this : Subscription) order c sym (t : T) :
  lock_run [] (events (run_ops ops this t)) = Some [] /\
  lock_run [] (events (Subscription_dtor this t)) = Some [] /\
  lock_run [] (events (main_subs order c sym t)) = Some [].
Proof.
  split; [now apply run_ops_locks|]. split; [now apply CloseImpl_locks|].
  unfold main_subs.
  repeat (rewrite events_bind, lock_run_app, emplace_back_locks by reflexivity).
  rewrite events_bind, lock_run_app.
  match goal with
  | |- context [closeAt 2 ?l ?t0] =>
      assert (E : lock_run [] (events (closeAt 2 l t0)) = Some []);
      [|rewrite E; destruct (result (closeAt 2 l t0))]
  end.
  - unfold closeAt.
    match goal with |- context [?l !! 2%nat] => destruct (l !! 2%nat) end;
      [|reflexivity].
    rewrite events_bind, app_nil_r. now apply Close_locks.
  - now apply destroy_each_locks.
  - reflexivity.
Qed.

(** ** Teardown calls and the released handle *)

Lemma teardown_scan_protocol (closed : bool) (evs : list Event) :
  teardown_scan closed (protocol evs) = teardown_scan closed evs.
Proof.
  revert closed. induction evs as [|e evs IH]; intros closed; [reflexivity|].
  unfold protocol in *.
  destruct e as [[]|[]| | | | | | | | |]; cbn; rewrite ?IH; reflexivity.
Qed.

Lemma teardown_scan_app (closed : bool) (e1 e2 : list Event) :
  teardown_scan closed (e1 ++ e2) =
  match teardown_scan closed e1 with
  | Some closed' => teardown_scan closed' e2
  | None => None
  end.
Proof.
  revert closed. induction e1 as [|e e1 IH]; intros closed; [reflexivity|].
  cbn [app teardown_scan].
  destruct (is_teardown_call e); [destruct closed|]; try reflexivity; apply IH.
Qed.

Lemma close_is_teardown (e : Event) :
  is_close_subscription e = true -> is_teardown_call e = true.
Proof. intros E. unfold is_teardown_call. now rewrite E, !orb_true_r. Qed.

Lemma teardown_scan_closed (closed' : bool) (evs : list Event) :
  teardown_scan true evs = Some closed' ->
  count is_close_subscription evs = 0%nat.
Proof.
  unfold count. induction evs as [|e evs IH]; [reflexivity|].
  cbn [teardown_scan List.filter].
  destruct (is_teardown_call e) eqn:Et; [discriminate|].
  destruct (is_close_subscription e) eqn:Ec; [|exact IH].
  apply close_is_teardown in Ec. congruence.
Qed.

Lemma teardown_scan_count (closed closed' : bool) (evs : list Event) :
  teardown_scan closed evs = Some closed' ->
  (count is_close_subscription evs <= 1)%nat.
Proof.
  revert closed. induction evs as [|e evs IH]; intros closed; [cbn; lia|].
  cbn [teardown_scan].
  change (e :: evs) with ([e] ++ evs). rewrite count_app.
  destruct (is_teardown_call e) eqn:Et.
  - destruct closed; [discriminate|].
    destruct (is_close_subscription e) eqn:Ec.
    + intros E. apply teardown_scan_closed in E. rewrite E.
      unfold count. cbn. rewrite Ec. cbn. lia.
    + intros E. apply IH in E. unfold count at 1. cbn. rewrite Ec. cbn. lia.
  - intros E. apply IH in E. unfold count at 1. cbn.
    destruct (is_close_subscription e) eqn:Ec; [|cbn; lia].
    apply close_is_teardown in Ec. congruence.
Qed.

Lemma CloseImpl_scan (closed : bool) (this : Subscription) (t : T) :
  (closed = true -> handle this = nullptr) ->
  exists closed',
    teardown_scan closed (events (CloseImpl this t)) = Some closed' /\
    (closed' = true -> handle (result (CloseImpl this t)) = nullptr).
Proof.
  intros Hc. rewrite <- teardown_scan_protocol.
  destruct (CloseImpl_spec this t) as [G|t1 G|r1 t1 t2 G|r1 t1 r2 t2 r3 t3 G].
  - exists closed. split; [reflexivity | exact Hc].
  - destruct closed; [now rewrite (guard_null this (Hc eq_refl)) in G|].
    exists false. split; [reflexivity | discriminate].
  - destruct closed; [now rewrite (guard_null this (Hc eq_refl)) in G|].
    exists false. split; [reflexivity | discriminate].
  - destruct closed; [now rewrite (guard_null this (Hc eq_refl)) in G|].
    exists true. split; reflexivity.
Qed.

Lemma run_op_scan (closed : bool) (op : Op) (this : Subscription) (t : T) :
  (closed = true -> handle this = nullptr) ->
  exists closed',
    teardown_scan closed (events (run_op op this t)) = Some closed' /\
    (closed' = true -> handle (result (run_op op this t)) = nullptr).
Proof.
  intros Hc. destruct op as [|eventType symbolName data dataCount|id c sym];
    cbn [run_op].
  - rewrite Close_run. cbn [result events fst snd].
    change (?a :: ?l ++ ?b) with ([a] ++ l ++ b).
    rewrite !teardown_scan_app. cbn [teardown_scan is_teardown_call
      is_remove_symbol is_detach_listener is_close_subscription orb].
    destruct (CloseImpl_scan closed this t Hc) as (closed' & E' & H').
    rewrite teardown_scan_app, E'.
    exists closed'. split; [reflexivity | exact H'].
  - exists closed. rewrite result_bind, events_bind, app_nil_r.
    split; [|exact Hc].
    rewrite <- teardown_scan_protocol. cbn [call_listener getListener].
    now rewrite listener_body_protocol.
  - exists closed. rewrite result_bind, events_bind, app_nil_r.
    split; [|exact Hc].
    rewrite <- teardown_scan_protocol.
    destruct (Subscription_ctor_spec id c sym t); reflexivity.
Qed.

Lemma run_ops_scan (closed : bool) (ops : list Op) (this : Subscription) (t : T) :
  (closed = true -> handle this = nullptr) ->
  exists closed',
    teardown_scan closed (events (run_ops ops this t)) = Some closed' /\
    (closed' = true -> handle (result (run_ops ops this t)) = nullptr).
Proof.
  revert closed this t. induction ops as [|op ops IH]; intros closed this t Hc.
  { exists closed. split; [reflexivity | exact Hc]. }
  cbn [run_ops]. rewrite result_bind, events_bind, teardown_scan_app.
  destruct (run_op_scan closed op this t Hc) as (c1 & -> & H1).
  apply IH, H1.
Qed.

(** X9. The handle is released at most once and not used afterwards: over
    any sequence of close, dispatch and create operations on a subscription
    followed by its destructor, whatever the library answers,
    [dxf_close_subscription] is called at most once, and after it neither
    [dxf_remove_symbol] nor [dxf_detach_event_listener] nor
    [dxf_close_subscription] is called. *)
Theorem release_once (ops : list Op) (this : Subscription) (t : T) :
  let r := (let* s := run_ops ops this in Subscription_dtor s) t in
  (exists closed, teardown_scan false (events r) = Some closed) /\
  (count is_close_subscription (events r) <= 1)%nat.
Proof.
  intros r.
  assert (E : exists closed, teardown_scan false (events r) = Some closed).
  { subst r. rewrite events_bind, teardown_scan_app.
    destruct (run_ops_scan false ops this t ltac:(discriminate))
      as (c1 & -> & H1).
    destruct (CloseImpl_scan c1 (result (run_ops ops this t))
                (state_after (run_ops ops this t)) H1) as (c2 & E2 & _).
    exists c2. exact E2. }
  split; [exact E|]. destruct E as (closed & E).
  eapply teardown_scan_count, E.
Qed.

(** ** What the teardown calls are made on *)

Lemma Forall_protocol (P : Event -> Prop) (evs : list Event) :
  (forall e, is_diagnostic e = true -> P e) ->
  Forall P (protocol evs) -> Forall P evs.
Proof.
  intros Hd. induction evs as [|e evs IH]; intros Hp; [constructor|].
  unfold protocol in *. cbn in Hp.
  destruct (is_diagnostic e) eqn:E; cbn in Hp.
  - constructor; [now apply Hd | now apply IH].
  - inversion Hp; subst. constructor; [assumption | now apply IH].
Qed.

Lemma teardown_on_diagnostic h sym (e : Event) :
  is_diagnostic e = true -> teardown_on h sym e.
Proof. now destruct e as [[]|[]| | | | | | | | |]. Qed.

Lemma CloseImpl_targets h sym (this : Subscription) (t : T) :
  symbol this = sym -> handle this = h \/ handle this = nullptr ->
  Forall (teardown_on h sym) (events (CloseImpl this t)) /\
  symbol (result (CloseImpl this t)) = sym /\
  (handle (result (CloseImpl this t)) = h \/
   handle (result (CloseImpl this t)) = nullptr).
Proof.
  intros Hs Hh.
  assert (Hg : teardown_guard this = true -> handle this = h).
  { intros G. destruct Hh as [E|E]; [exact E|].
    now rewrite (guard_null this E) in G. }
  split.
  - apply Forall_protocol; [apply teardown_on_diagnostic|].
    destruct (CloseImpl_spec this t) as [G|t1 G|r1 t1 t2 G|r1 t1 r2 t2 r3 t3 G];
      [constructor| | |]; specialize (Hg G); repeat constructor; assumption.
  - destruct (CloseImpl_spec this t); cbn; auto.
Qed.

Lemma run_ops_targets h sym (ops : list Op) (this : Subscription) (t : T) :
  symbol this = sym -> handle this = h \/ handle this = nullptr ->
  Forall (teardown_on h sym) (events (run_ops ops this t)).
Proof.
  revert this t. induction ops as [|op ops IH]; intros this t Hs Hh;
    [constructor|].
  cbn [run_ops]. rewrite events_bind. apply Forall_app.
  destruct op as [|eventType symbolName data dataCount|id c sym'];
    cbn [run_op].
  - destruct (CloseImpl_targets h sym this t Hs Hh) as (Hev & Hs' & Hh').
    rewrite Close_run. cbn [result state_after events fst snd]. split.
    + constructor; [exact I|]. apply Forall_app. split; [exact Hev|].
      repeat constructor.
    + now apply IH.
  - rewrite result_bind, events_bind, app_nil_r. split; [|now apply IH].
    apply Forall_protocol; [apply teardown_on_diagnostic|].
    cbn [call_listener getListener]. rewrite listener_body_protocol. constructor.
  - rewrite result_bind, events_bind, app_nil_r. split; [|now apply IH].
    apply Forall_protocol; [apply teardown_on_diagnostic|].
    destruct (Subscription_ctor_spec id c sym' t); repeat constructor.
Qed.

(** X10. Teardown acts on what setup registered: through the life of a
    subscription (its construction followed by any sequence of close,
    dispatch and create operations) every [dxf_remove_symbol],
    [dxf_detach_event_listener] and [dxf_close_subscription] is called on the
    handle that [dxf_create_subscription] left in the constructor, and every
    [dxf_remove_symbol] passes the symbol given to the constructor. *)
Theorem teardown_targets id c sym (ops : list Op) (t : T) :
  let r0 := Subscription_ctor id c sym t in
  let r := run_ops ops (result r0) (state_after r0) in
  created_handles (events r0) = [handle (result r0)] /\
  Forall (teardown_on (handle (result r0)) sym) (events r0 ++ events r).
Proof.
  intros r0 r. split.
  - subst r0. unfold created_handles.
    assert (E : forall evs,
               omap (fun e => match e with
                              | EvCreateSubscription _ _ _ h => Some h
                              | _ => None
                              end) (protocol evs) =
               omap (fun e => match e with
                              | EvCreateSubscription _ _ _ h => Some h
                              | _ => None
                              end) evs).
    { induction evs as [|e evs IH]; [reflexivity|]. unfold protocol in *.
      destruct e as [[]|[]| | | | | | | | |]; cbn; now rewrite ?IH. }
    rewrite <- E.
    destruct (Subscription_ctor_spec id c sym t); reflexivity.
  - apply Forall_app. split.
    + apply Forall_protocol; [apply teardown_on_diagnostic|]. subst r0.
      destruct (Subscription_ctor_spec id c sym t); repeat constructor.
    + apply run_ops_targets; [|now left]. subst r0.
      destruct (Subscription_ctor_spec id c sym t); reflexivity.
Qed.

(** ** Setup and teardown together *)

Lemma forallb_protocol (p : Event -> bool) (evs : list Event) :
  forallb p evs = true -> forallb p (protocol evs) = true.
Proof.
  rewrite !List.forallb_forall. intros Hall e Hin.
  apply Hall, (protocol_in e evs Hin).
Qed.

Ltac split_tests :=
  repeat match goal with
         | Hb : _ && _ = true |- _ =>
             let H1 := fresh Hb in
             apply andb_prop in Hb; destruct Hb as [Hb H1]
         end;
  repeat match goal with
         | Hb : (?x =? DXF_SUCCESS) = true |- _ => apply Z.eqb_eq in Hb; subst x
         end.

(** X11. Setup and teardown mirror each other.  When every call that the
    constructor and a following [Close] make returns [DXF_SUCCESS], with a
    handle that is not null, the calls are create, attach and add on that
    handle and then, under the lock of the subscription, remove, detach and
    close on the same handle, with the same symbol and listener, and the
    subscription ends with a null handle and [DXF_SUCCESS]. *)
Theorem setup_then_teardown id c sym (t : T) :
  DXF_SUCCESS <> DXF_FAILURE ->
  let r := (let* s := Subscription_ctor id c sym in Close s) t in
  forallb call_ok (events r) = true ->
  let h := handle (result (Subscription_ctor id c sym t)) in
  h <> nullptr /\
  protocol (events r) =
  [EvCreateSubscription c DXF_ET_QUOTE DXF_SUCCESS h;
   EvAttachListener h (getListener id) id DXF_SUCCESS;
   EvAddSymbol h sym DXF_SUCCESS;
   EvLock (sub_mutex id);
   EvRemoveSymbol h sym DXF_SUCCESS;
   EvDetachListener h (getListener id) DXF_SUCCESS;
   EvCloseSubscription h DXF_SUCCESS;
   EvUnlock (sub_mutex id)] /\
  result r = new_Subscription id c sym nullptr DXF_SUCCESS.
Proof.
  intros Hne r Hok h. subst r h.
  rewrite events_bind, forallb_app in Hok. apply andb_prop in Hok.
  destruct Hok as [Hok1 Hok2]. apply forallb_protocol in Hok1.
  rewrite Close_run in Hok2. cbn [events snd forallb] in Hok2.
  rewrite forallb_app in Hok2. cbn [call_ok andb] in Hok2.
  apply andb_prop in Hok2. destruct Hok2 as [Hok2 _].
  apply forallb_protocol in Hok2.
  rewrite result_bind, events_bind, protocol_app, Close_run.
  cbn [result events fst snd]. rewrite Subscription_ctor_id.
  change (?a :: ?l ++ ?b) with ([a] ++ l ++ b). rewrite !protocol_app.
  cbn [protocol List.filter is_diagnostic negb app].
  revert Hok2.
  generalize (state_after (Subscription_ctor id c sym t)). revert Hok1.
  destruct (Subscription_ctor_spec id c sym t) as [h t1 E1|r1 h t1 t2 E1 N1 E2
                                                   |r1 h t1 r2 t2 r3 t3 E1 N1 E2 N2 E3];
    cbn [forallb call_ok andb]; intros Hok1 t0.
  - destruct (Z.eqb_spec DXF_FAILURE DXF_SUCCESS); [congruence|discriminate].
  - destruct (Z.eqb_spec DXF_FAILURE DXF_SUCCESS); [congruence|].
    rewrite andb_false_r in Hok1. discriminate.
  - rewrite !andb_true_r in Hok1. split_tests.
    match goal with
    | Hn : negb (h =? nullptr) = true |- _ =>
        apply negb_true_iff, Z.eqb_neq in Hn; rename Hn into Hh
    end.
    cbn [handle new_Subscription sub_id].
    destruct (CloseImpl_spec (new_Subscription id c sym h DXF_SUCCESS) t0)
      as [G|t1' G E1'|r1' t1' t2' G E1' N1' E2'
          |r1' t1' r2' t2' r3' t3' G E1' N1' E2' N2' E3'];
      cbn [forallb call_ok andb handle symbol sub_id new_Subscription];
      intros Hok2.
    + unfold teardown_guard in G. cbn in G.
      rewrite Z.eqb_refl, (proj2 (Z.eqb_neq h nullptr) Hh) in G. discriminate.
    + destruct (Z.eqb_spec DXF_FAILURE DXF_SUCCESS); [congruence|discriminate].
    + destruct (Z.eqb_spec DXF_FAILURE DXF_SUCCESS); [congruence|].
      rewrite andb_false_r in Hok2. discriminate.
    + rewrite !andb_true_r in Hok2. split_tests.
      repeat split. exact Hh.
Qed.

(** X12. The steps are made in order and none is skipped: the calls of the
    constructor are a beginning, not empty, of create, attach, add, all on
    the handle that create left; the calls of [CloseImpl] are a beginning of
    remove, detach, close, all on the handle of the subscription. *)
Theorem calls_in_order id c sym (this : Subscription) (t : T) :
  let r0 := Subscription_ctor id c sym t in
  let h := handle (result r0) in
  (exists r1 r2 r3,
      protocol (events r0) `prefix_of`
        [EvCreateSubscription c DXF_ET_QUOTE r1 h;
         EvAttachListener h (getListener id) id r2;
         EvAddSymbol h sym r3]) /\
  protocol (events r0) <> [] /\
  (exists r1 r2 r3,
      protocol (events (CloseImpl this t)) `prefix_of`
        [EvRemoveSymbol (handle this) (symbol this) r1;
         EvDetachListener (handle this) (getListener (sub_id this)) r2;
         EvCloseSubscription (handle this) r3]).
Proof.
  intros r0 h. subst r0 h. split; [|split].
  - destruct (Subscription_ctor_spec id c sym t) as [h t1 E1|r1 h t1 t2 E1 N1 E2
                                                     |r1 h t1 r2 t2 r3 t3 E1];
      cbn [handle new_Subscription].
    + exists DXF_FAILURE, DXF_FAILURE, DXF_FAILURE. now eexists.
    + exists r1, DXF_FAILURE, DXF_FAILURE. now eexists.
    + exists r1, r2, r3. now exists [].
  - destruct (Subscription_ctor_spec id c sym t); discriminate.
  - destruct (CloseImpl_spec this t) as [G|t1 G|r1 t1 t2 G|r1 t1 r2 t2 r3 t3 G].
    + exists 0, 0, 0. now eexists.
    + exists DXF_FAILURE, 0, 0. now eexists.
    + exists r1, DXF_FAILURE, 0. now eexists.
    + exists r1, r2, r3. now exists [].
Qed.

(** ** Repeated [Close] *)

(** X13. [Close] is idempotent unless its detach call fails: when the
    detach call of the first [Close] does not return [DXF_FAILURE], any
    number of further calls of [Close] make no call into the library and
    leave the object and the library as the first one left them. *)
Theorem Close_idempotent (n : nat) (this : Subscription) (t : T) :
  DXF_SUCCESS <> DXF_FAILURE ->
  (forall h l, ~ In (EvDetachListener h l DXF_FAILURE) (events (Close this t))) ->
  let r1 := Close this t in
  let rn := Close_times (S n) this t in
  result rn = result r1 /\
  state_after rn = state_after r1 /\
  List.filter is_facade_call (events rn) = List.filter is_facade_call (events r1).
Proof.
  intros Hne Hd r1 rn. subst r1 rn.
  split; [|split]; [| |now apply Close_times_once].
  - cbn [Close_times]. rewrite result_bind.
    apply Close_times_skipped, Close_settles; assumption.
  - cbn [Close_times]. rewrite state_after_bind.
    apply Close_times_skipped, Close_settles; assumption.
Qed.

(** ** The listener *)

(** X14. A dispatched event makes no call into the library and leaves its
    state as it was.  For an event type other than [DXF_ET_QUOTE] the
    listener writes the heading only, with no line end.  For a quote, what
    it writes does not depend on the ask price and the ask size of the
    record: the bid price and the bid size are written in their place. *)
Theorem listener_output id eventType symbolName (q : dxf_quote_t) dataCount
        userData price size (t : T) :
  let r := listener_body id eventType symbolName q dataCount userData t in
  state_after r = t /\
  protocol (events r) = [] /\
  (eventType <> DXF_ET_QUOTE ->
   wcout_items (events r) =
   [put_narrow "Sub["; put_size_t id; put_narrow "]: Listener[";
    put_size_t userData; put_narrow "]: "]) /\
  events (listener_body id eventType symbolName (with_ask price size q)
                        dataCount userData t) = events r /\
  (eventType = DXF_ET_QUOTE ->
   omap (fun e => match e with EvWcout (put_double d) => Some d | _ => None end)
        (events r) =
   [bid_price q; bid_size q; bid_price q; bid_size q]).
Proof.
  intros r. subst r. split; [|split; [|split; [|split]]].
  - unfold listener_body. rewrite !state_after_bind.
    destruct (eventType =? DXF_ET_QUOTE); [|reflexivity].
    rewrite !state_after_bind.
    cbn [emit wcout state_after result fst snd].
    now rewrite !(proj2 (printTimestamp_protocol _ _ _)).
  - apply listener_body_protocol.
  - intros Hne. unfold listener_body, bind, emit, ret, wcout.
    rewrite (proj2 (Z.eqb_neq _ _) Hne). reflexivity.
  - unfold listener_body.
    destruct (eventType =? DXF_ET_QUOTE); reflexivity.
  - intros ->. unfold listener_body, printTimestamp, bind, emit, ret, wcout.
    rewrite Z.eqb_refl. reflexivity.
Qed.

(** ** The handles of [main] *)

Lemma created_handles_protocol (evs : list Event) :
  created_handles (protocol evs) = created_handles evs.
Proof.
  induction evs as [|e evs IH]; [reflexivity|].
  unfold protocol, created_handles in *.
  destruct e as [[]|[]| | | | | | | | |]; cbn; now rewrite ?IH.
Qed.

Lemma closed_handles_protocol (evs : list Event) :
  closed_handles (protocol evs) = closed_handles evs.
Proof.
  induction evs as [|e evs IH]; [reflexivity|].
  unfold protocol, closed_handles in *.
  destruct e as [[]|[]| | | | | | | | |]; cbn; now rewrite ?IH.
Qed.

Lemma created_handles_app (e1 e2 : list Event) :
  created_handles (e1 ++ e2) = created_handles e1 ++ created_handles e2.
Proof. apply omap_app. Qed.

Lemma closed_handles_app (e1 e2 : list Event) :
  closed_handles (e1 ++ e2) = closed_handles e1 ++ closed_handles e2.
Proof. apply omap_app. Qed.

Lemma emplace_back_ok id c sym (subs : list Subscription) (t : T) :
  DXF_SUCCESS <> DXF_FAILURE ->
  forallb call_ok (events (emplace_back id c sym subs t)) = true ->
  exists h,
    h <> nullptr /\
    result (emplace_back id c sym subs t) =
      subs ++ [new_Subscription id c sym h DXF_SUCCESS] /\
    created_handles (events (emplace_back id c sym subs t)) = [h] /\
    closed_handles (events (emplace_back id c sym subs t)) = [].
Proof.
  intros Hne Hok. unfold emplace_back in *.
  rewrite result_bind, events_bind, app_nil_r in *. cbn [ret result fst].
  apply forallb_protocol in Hok.
  rewrite <- created_handles_protocol, <- closed_handles_protocol.
  revert Hok.
  destruct (Subscription_ctor_spec id c sym t) as [h t1 E1|r1 h t1 t2 E1 N1 E2
                                                   |r1 h t1 r2 t2 r3 t3 E1 N1 E2 N2 E3];
    cbn [forallb call_ok andb]; intros Hok.
  - destruct (Z.eqb_spec DXF_FAILURE DXF_SUCCESS); [congruence|discriminate].
  - destruct (Z.eqb_spec DXF_FAILURE DXF_SUCCESS); [congruence|].
    rewrite andb_false_r in Hok. discriminate.
  - rewrite !andb_true_r in Hok. split_tests.
    match goal with
    | Hn : negb (h =? nullptr) = true |- _ =>
        apply negb_true_iff, Z.eqb_neq in Hn; rename Hn into Hh
    end.
    exists h. repeat split. exact Hh.
Qed.

(** [CloseImpl] on an open subscription, the library answering with
    success. *)
Lemma CloseImpl_ok (this : Subscription) (t : T) :
  DXF_SUCCESS <> DXF_FAILURE ->
  handle this <> nullptr -> errorCode this = DXF_SUCCESS ->
  forallb call_ok (events (CloseImpl this t)) = true ->
  handle (result (CloseImpl this t)) = nullptr /\
  created_handles (events (CloseImpl this t)) = [] /\
  closed_handles (events (CloseImpl this t)) = [handle this].
Proof.
  intros Hne Hh He Hok. apply forallb_protocol in Hok.
  rewrite <- created_handles_protocol, <- closed_handles_protocol.
  revert Hok.
  destruct (CloseImpl_spec this t) as [G|t1 G E1|r1 t1 t2 G E1 N1 E2
                                       |r1 t1 r2 t2 r3 t3 G E1 N1 E2 N2 E3];
    cbn [forallb call_ok andb]; intros Hok.
  - unfold teardown_guard in G.
    rewrite He, Z.eqb_refl, (proj2 (Z.eqb_neq _ _) Hh) in G. discriminate.
  - destruct (Z.eqb_spec DXF_FAILURE DXF_SUCCESS); [congruence|discriminate].
  - destruct (Z.eqb_spec DXF_FAILURE DXF_SUCCESS); [congruence|].
    rewrite andb_false_r in Hok. discriminate.
  - repeat split.
Qed.

Lemma destroy_each_ok (subs : list Subscription) (t : T) :
  DXF_SUCCESS <> DXF_FAILURE ->
  Forall (fun s => handle s = nullptr \/ errorCode s = DXF_SUCCESS) subs ->
  forallb call_ok (events (destroy_each subs t)) = true ->
  Forall (fun s => handle s = nullptr) (result (destroy_each subs t)) /\
  created_handles (events (destroy_each subs t)) = [] /\
  closed_handles (events (destroy_each subs t)) = open_handles subs.
Proof.
  intros Hne Hall. revert t.
  induction Hall as [|s subs Hs Hall IH]; intros t Hok.
  { repeat split. constructor. }
  cbn [destroy_each] in *. unfold Subscription_dtor in *.
  rewrite !events_bind, !result_bind in *. cbn [ret result events fst snd] in *.
  rewrite app_nil_r in *.
  rewrite forallb_app in Hok. apply andb_prop in Hok. destruct Hok as [Hok1 Hok2].
  specialize (IH _ Hok2). destruct IH as (IH1 & IH2 & IH3).
  rewrite created_handles_app, closed_handles_app, IH2, IH3.
  unfold open_handles. cbn [map List.filter]. fold (open_handles subs).
  destruct (Z.eqb_spec (handle s) nullptr) as [E|N]; cbn [negb].
  - rewrite (CloseImpl_skipped s t (guard_null s E)) in *.
    cbn [result events fst snd]. repeat split. now constructor.
  - destruct Hs as [Hs|Hs]; [congruence|].
    destruct (CloseImpl_ok s t Hne N Hs Hok1) as (R1 & R2 & R3).
    rewrite R2, R3. repeat split. now constructor.
Qed.

Ltac next_emplace Hne Hok :=
  rewrite events_bind, forallb_app in Hok; apply andb_prop in Hok;
  let Hk := fresh "Hk" in
  let h := fresh "h" in
  let Hh := fresh "Hh" in
  let Hres := fresh "Hres" in
  let Hcr := fresh "Hcr" in
  let Hcl := fresh "Hcl" in
  destruct Hok as [Hk Hok];
  destruct (emplace_back_ok _ _ _ _ _ Hne Hk) as (h & Hh & Hres & Hcr & Hcl);
  rewrite result_bind, events_bind, created_handles_app, closed_handles_app,
    Hcr, Hcl;
  rewrite Hres in Hok |- *; clear Hres Hcr Hcl Hk;
  match goal with
  | |- context [state_after (emplace_back ?i ?c ?s ?l ?t)] =>
      generalize dependent (state_after (emplace_back i c s l t)); intros ? Hok
  end;
  cbn [app] in Hok |- *.

(** X15. [main] releases what it creates: when every call of the part of
    [main] that builds and releases the five subscriptions returns
    [DXF_SUCCESS], with handles that are not null, every handle that
    [dxf_create_subscription] gave is passed to [dxf_close_subscription]
    exactly once (the third one by the explicit [Close], the others by the
    release of the vector, in either order of destruction), and every
    subscription ends with a null handle. *)
Theorem main_releases_handles order c sym (t : T) :
  DXF_SUCCESS <> DXF_FAILURE ->
  let r := main_subs order c sym t in
  forallb call_ok (events r) = true ->
  Permutation (closed_handles (events r)) (created_handles (events r)) /\
  length (created_handles (events r)) = 5%nat /\
  Forall (fun s => handle s = nullptr) (result r).
Proof.
  intros Hne r Hok. subst r. unfold main_subs in *.
  do 5 next_emplace Hne Hok.
  rewrite events_bind, forallb_app in Hok. apply andb_prop in Hok.
  destruct Hok as [Hk Hok].
  rewrite result_bind, events_bind, created_handles_app, closed_handles_app.
  unfold closeAt in Hk, Hok |- *. cbn [lookup list_lookup] in Hk, Hok |- *.
  rewrite events_bind, app_nil_r in Hk.
  rewrite result_bind, state_after_bind in Hok |- *.
  rewrite events_bind.
  cbn [ret result state_after events fst snd] in Hok |- *.
  rewrite app_nil_r.
  rewrite Close_run in Hk, Hok |- *.
  cbn [result state_after events fst snd forallb call_ok andb] in Hk, Hok |- *.
  rewrite forallb_app in Hk. apply andb_prop in Hk. destruct Hk as [Hk _].
  match type of Hk with
  | context [CloseImpl ?s ?t0] =>
      destruct (CloseImpl_ok s t0 Hne ltac:(assumption) eq_refl Hk)
        as (R1 & R2 & R3);
      change (?a :: events (CloseImpl s t0) ++ ?b)
        with ([a] ++ events (CloseImpl s t0) ++ b);
      rewrite !created_handles_app, !closed_handles_app, R2, R3;
      generalize dependent (state_after (CloseImpl s t0));
      generalize dependent (result (CloseImpl s t0))
  end.
  intros s3 R1 t6 Hok. clear Hk R2 R3.
  cbn [list_insert insert created_handles closed_handles omap app handle
       new_Subscription] in Hok |- *.
  unfold vector_dtor in Hok |- *.
  match goal with
  | |- context [destroy_each ?l t6] =>
      assert (Hall : Forall (fun s => handle s = nullptr \/
                                      errorCode s = DXF_SUCCESS) l)
  end.
  { destruct order; cbn [rev app];
      repeat (apply List.Forall_cons;
              [first [left; exact R1 | right; reflexivity]|]);
      apply List.Forall_nil. }
  destruct (destroy_each_ok _ t6 Hne Hall Hok) as (D1 & D2 & D3).
  rewrite D2, D3. split; [|split; [reflexivity | exact D1]].
  unfold open_handles.
  destruct order; cbn [rev app map List.filter handle new_Subscription];
    rewrite R1;
    repeat match goal with
           | Hn : ?x <> nullptr |- context [?x =? nullptr] =>
               rewrite (proj2 (Z.eqb_neq x nullptr) Hn)
           end;
    cbn.
  - match goal with
    | |- Permutation (?a :: ?x :: ?y :: ?l) _ =>
        apply (Permutation_cons_app [x; y] l a); reflexivity
    end.
  - match goal with
    | |- Permutation (?a :: ?l) (?x :: ?y :: ?a :: ?l') =>
        apply (Permutation_cons_app [x; y] l' a);
        change (Permutation (rev (x :: y :: l')) ([x; y] ++ l'));
        symmetry; apply Permutation_rev
    end.
Qed.

(** ** Subscriptions that are never released *)

Lemma teardown_call_not_diagnostic (e : Event) :
  is_teardown_call e = true -> is_diagnostic e = false.
Proof. now destruct e as [[]|[]| | | | | | | | |]. Qed.

Lemma run_op_inert (op : Op) (this : Subscription) (t : T) :
  teardown_guard this = false ->
  result (run_op op this t) = this /\
  count is_teardown_call (events (run_op op this t)) = 0%nat.
Proof.
  intros G. destruct op as [|eventType symbolName data dataCount|id c sym];
    cbn [run_op].
  - rewrite (Close_skipped this t G). split; reflexivity.
  - rewrite result_bind, events_bind, app_nil_r. split; [reflexivity|].
    rewrite (count_protocol is_teardown_call)
      by exact teardown_call_not_diagnostic.
    cbn [call_listener getListener]. now rewrite listener_body_protocol.
  - rewrite result_bind, events_bind, app_nil_r. split; [reflexivity|].
    rewrite (count_protocol is_teardown_call)
      by exact teardown_call_not_diagnostic.
    destruct (Subscription_ctor_spec id c sym t); reflexivity.
Qed.

(** X16. A subscription on which the guard of [CloseImpl] is closed (its
    handle is null, or its error code is not [DXF_SUCCESS], as after a setup
    or a teardown that recorded a failure) stays as it is for good: no
    sequence of close, dispatch and create operations, nor its destructor,
    changes the object or makes a teardown call.  In particular the handle
    of a subscription whose setup failed after [dxf_create_subscription] is
    never passed to [dxf_close_subscription]. *)
Theorem closed_guard_is_final (ops : list Op) (this : Subscription) (t : T) :
  teardown_guard this = false ->
  let r := (let* s := run_ops ops this in Subscription_dtor s) t in
  result r = this /\
  count is_teardown_call (events r) = 0%nat.
Proof.
  intros G r. subst r. revert t.
  induction ops as [|op ops IH]; intros t.
  - rewrite result_bind, events_bind. cbn [run_ops ret result state_after events
                                           fst snd app].
    unfold Subscription_dtor. rewrite (CloseImpl_skipped this t G).
    split; reflexivity.
  - destruct (run_op_inert op this t G) as (R1 & R2).
    specialize (IH (state_after (run_op op this t))).
    rewrite result_bind, events_bind in IH |- *.
    cbn [run_ops]. rewrite result_bind, state_after_bind, events_bind, R1.
    rewrite <- app_assoc, count_app, R2. exact IH.
Qed.
End ProgramFacts.


(** * Concrete runs

    The scripted library with the constants of the real headers:
    [DXF_SUCCESS] is [1] and [DXF_FAILURE] is [0]. *)

Ltac pick_event := repeat first [left; reflexivity | right].

(** ** Setup *)

Lemma fail_fast_setup_witness :
  (count is_add_symbol (events (ctor1 [1; 0])) = 0%nat /\
   errorCode (result (ctor1 [1; 0])) = 0) /\
  (count is_attach_listener (events (ctor1 [0])) = 0%nat /\
   count is_add_symbol (events (ctor1 [0])) = 0%nat /\
   errorCode (result (ctor1 [0])) = 0).
Proof.
  split.
  - apply (proj1 (@fail_fast_setup Script scripted dxfeed_h 1 7 ETH_USD
                    (script [1; 0]) 100 (lambda_of 1) 1%N 7 2 0)).
    vm_compute. pick_event.
  - apply (proj2 (@fail_fast_setup Script scripted dxfeed_h 1 7 ETH_USD
                    (script [0]) 100 (lambda_of 1) 1%N 7 2 0)).
    vm_compute. pick_event.
Defined.

(** C2, the claim as stated fails: the constructor gets a handle, the attach
    call fails, and [Close] on the object neither calls
    [dxf_close_subscription] nor clears the handle. *)
Lemma close_keeps_handle_of_aborted_setup :
  handle (result (ctor1 [1; 0])) = 100 /\
  errorCode (result (ctor1 [1; 0])) = 0 /\
  count is_close_subscription (events (Close1 (ctor1 [1; 0]))) = 0%nat /\
  handle (result (Close1 (ctor1 [1; 0]))) = 100.
Proof. vm_compute. repeat split. Qed.

Lemma close_after_aborted_setup_witness :
  errorCode (result (ctor1 [1; 0])) = 0 /\
  Close1 (ctor1 [1; 0]) =
  (result (ctor1 [1; 0]), state_after (ctor1 [1; 0]),
   [EvLock (sub_mutex 1); EvUnlock (sub_mutex 1)]).
Proof.
  apply (@close_after_aborted_setup Script scripted dxfeed_h 1 7 ETH_USD
           (script [1; 0]) (EvAttachListener 100 (lambda_of 1) 1 0)).
  - vm_compute. discriminate.
  - vm_compute. pick_event.
  - reflexivity.
Defined.

(** ** Teardown with a failing detach *)

(** C1, the code at the failing input: the setup succeeds, the detach call
    of the first [Close] fails, and the second [Close] runs the teardown
    again, so that [dxf_remove_symbol] and [dxf_detach_event_listener] are
    each called twice. *)
Theorem close_twice_after_failed_detach :
  let r0 := ctor1 [1; 1; 1; 1; 0] in
  let r := @Close_times Script scripted dxfeed_h 2 (result r0) (state_after r0) in
  teardown_guard (hdr := dxfeed_h) (result r0) = true /\
  count is_remove_symbol (events r) = 2%nat /\
  count is_detach_listener (events r) = 2%nat /\
  count is_close_subscription (events r) = 1%nat.
Proof. vm_compute. repeat split. Qed.

(** The same input step by step: after the [Close] whose detach call fails
    the error code is still [DXF_SUCCESS], and the next [Close] calls
    [dxf_remove_symbol] and [dxf_detach_event_listener] again. *)
Example failed_detach_not_recorded :
  let r0 := ctor1 [1; 1; 1; 1; 0] in
  let r1 := Close1 r0 in
  let r2 := Close1 r1 in
  protocol (events r1) =
    [EvLock (sub_mutex 1); EvRemoveSymbol 100 ETH_USD 1;
     EvDetachListener 100 (lambda_of 1) 0; EvUnlock (sub_mutex 1)] /\
  errorCode (result r1) = 1 /\ handle (result r1) = 100 /\
  protocol (events r2) =
    [EvLock (sub_mutex 1); EvRemoveSymbol 100 ETH_USD 1;
     EvDetachListener 100 (lambda_of 1) 1; EvCloseSubscription 100 1;
     EvUnlock (sub_mutex 1)].
Proof. vm_compute. repeat split. Qed.

(** ** Failing teardown steps *)

(** C3, the claim as stated fails: the setup succeeds,
    [dxf_close_subscription] fails in [Close], and the handle is null
    afterwards. *)
Lemma failed_close_clears_handle :
  let r0 := ctor1 [1; 1; 1; 1; 1; 0] in
  let r1 := Close1 r0 in
  handle (result r0) = 100 /\ errorCode (result r0) = 1 /\
  protocol (events r1) =
    [EvLock (sub_mutex 1); EvRemoveSymbol 100 ETH_USD 1;
     EvDetachListener 100 (lambda_of 1) 1; EvCloseSubscription 100 0;
     EvUnlock (sub_mutex 1)] /\
  errorCode (result r1) = 0 /\ handle (result r1) = nullptr.
Proof. vm_compute. repeat split. Qed.

Lemma teardown_failure_witness :
  let this := new_Subscription 1 7 ETH_USD 100 1 in
  let r1 := @Close Script scripted dxfeed_h this (script [0]) in
  let r2 := @Close Script scripted dxfeed_h this (script [1; 0]) in
  let r3 := @Close Script scripted dxfeed_h this (script [1; 1; 0]) in
  (errorCode (result r1) = 0 /\ handle (result r1) = 100) /\
  (count is_close_subscription (events r2) = 0%nat /\ handle (result r2) = 100) /\
  (errorCode (result r3) = 0 /\ handle (result r3) = nullptr).
Proof.
  intros this r1 r2 r3.
  assert (Hne : @DXF_SUCCESS dxfeed_h <> @DXF_FAILURE dxfeed_h)
    by (intros E; vm_compute in E; discriminate E).
  assert (G : teardown_guard (hdr := dxfeed_h) this = true) by reflexivity.
  split; [|split].
  - destruct (proj1 (@teardown_failure Script scripted dxfeed_h this (script [0])
                       100 ETH_USD (lambda_of 1) Hne G)) as (_ & _ & E & Hh & _).
    + vm_compute. pick_event.
    + split; [exact E | exact Hh].
  - destruct (proj1 (proj2 (@teardown_failure Script scripted dxfeed_h this
                              (script [1; 0]) 100 ETH_USD (lambda_of 1) Hne G)))
      as (Hc & Hh & _).
    + vm_compute. pick_event.
    + split; [exact Hc | exact Hh].
  - destruct (proj2 (proj2 (@teardown_failure Script scripted dxfeed_h this
                              (script [1; 1; 0]) 100 ETH_USD (lambda_of 1) Hne G)))
      as (E & Hh & _).
    + vm_compute. pick_event.
    + split; [exact E | exact Hh].
Defined.

(** The sibling step: a failing [dxf_remove_symbol] is recorded, and the
    next [Close] makes no call. *)
Example failed_remove_recorded :
  let r1 := Close1 (ctor1 [1; 1; 1; 0]) in
  errorCode (result r1) = 0 /\ handle (result r1) = 100 /\
  protocol (events (Close1 r1)) = [EvLock (sub_mutex 1); EvUnlock (sub_mutex 1)].
Proof. vm_compute. repeat split. Qed.

(** ** Locking *)

(** C4, the claim as stated fails: on an active subscription [Close] takes
    the lock of the subscription and the destructor does not. *)
Lemma destructor_takes_no_lock :
  let r0 := ctor1 [] in
  count is_sub_lock (events (Close1 r0)) = 1%nat /\
  count is_sub_lock
    (events (@Subscription_dtor Script scripted dxfeed_h (result r0)
               (state_after r0))) = 0%nat /\
  List.filter is_facade_call
    (events (@Subscription_dtor Script scripted dxfeed_h (result r0)
               (state_after r0))) =
  [EvRemoveSymbol 100 ETH_USD 1; EvDetachListener 100 (lambda_of 1) 1;
   EvCloseSubscription 100 1].
Proof. vm_compute. repeat split. Qed.

(** ** Lifecycle *)

(** C6, the claim as stated fails: after a setup that aborts at the attach
    call the handle is not null and the subscription is not [Active]. *)
Lemma handle_without_Active :
  let r0 := ctor1 [1; 0] in
  let r := @run_ops Script scripted dxfeed_h [] (result r0) (state_after r0) in
  handle (result r) = 100 /\ handle (result r) <> nullptr /\
  lifecycle (hdr := dxfeed_h) (events r0) (events r) = Uninitialized /\
  lifecycle (hdr := dxfeed_h) (events r0) (events r) <> Active.
Proof. vm_compute. repeat split; discriminate. Qed.

Lemma lifecycle_invariant_witness :
  let r0 := ctor1 [] in
  let r := @run_ops Script scripted dxfeed_h
             [OpDispatch 2 ETH_USD a_quote 1; OpClose]
             (result r0) (state_after r0) in
  let r' := @run_ops Script scripted dxfeed_h
              [OpClose; OpCreate 2 7 ETH_USD; OpDispatch 2 ETH_USD a_quote 1]
              (result r) (state_after r) in
  handle (result r) = nullptr /\
  result r' = result r /\
  lifecycle (hdr := dxfeed_h) (events r0) (events r ++ events r') = Closed.
Proof.
  apply (@lifecycle_invariant Script scripted dxfeed_h 1 7 ETH_USD
           [OpDispatch 2 ETH_USD a_quote 1; OpClose]
           [OpClose; OpCreate 2 7 ETH_USD; OpDispatch 2 ETH_USD a_quote 1]
           (script [])).
  - vm_compute. discriminate.
  - vm_compute. discriminate.
  - reflexivity.
Defined.

(** ** The vector of subscriptions *)

(** C8, the claim as stated fails: with a vector that destroys its elements
    from the last to the first, [main] tears the subscriptions down in the
    reverse of the order of insertion (after the explicit [Close] of the
    third one, whose handle is 102). *)
Lemma release_back_to_front :
  let evs := events (@main_subs Script scripted dxfeed_h BackToFront 7 ETH_USD
                       (script [])) in
  removed_handles evs = [102; 104; 103; 101; 100] /\
  removed_handles evs <> [102; 100; 101; 103; 104].
Proof. vm_compute. split; [reflexivity | discriminate]. Qed.

(** With a vector that destroys from the first to the last, the order is the
    order of insertion, also when the teardown of the first two elements
    fails (at [dxf_remove_symbol] and at [dxf_detach_event_listener]). *)
Example release_front_to_back :
  removed_handles
    (events (@main_subs Script scripted dxfeed_h FrontToBack 7 ETH_USD
               (script [1; 1; 1; 1; 1; 1; 1; 1; 1; 1; 1; 1; 1; 1; 1;
                        1; 1; 1; 0; 1; 0])))
  = [102; 100; 101; 103; 104].
Proof. vm_compute. reflexivity. Qed.

Lemma registry_release_witness :
  In 101 (removed_handles
            (events (@vector_dtor Script scripted dxfeed_h FrontToBack demo_subs
                       (script [0])))) /\
  (length demo_closed = length demo_subs /\
   forall j : nat, j <> 1%nat -> demo_closed !! j = demo_subs !! j).
Proof.
  split.
  - apply (proj1 (proj2 (@registry_release Script scripted dxfeed_h FrontToBack
                           demo_subs 1 (script [0])))
             (new_Subscription 2 7 ETH_USD 101 1)).
    + vm_compute. pick_event.
    + reflexivity.
  - apply (proj2 (proj2 (@registry_release Script scripted dxfeed_h FrontToBack
                           demo_subs 1 (script [])))
             demo_closed).
    reflexivity.
Defined.

(** ** The display helpers *)

(** C9, the claim as stated fails: for a value outside the enumerators
    the helpers return the empty string, a text of no characters, and not a
    text that says unknown. *)
Lemma fallback_is_empty :
  orderScopeToString (hdr := dxfeed_h) 4 = Some [] /\
  orderSideToString (hdr := dxfeed_h) 3 = Some [] /\
  orderScopeToString (hdr := dxfeed_h) 4 <> L "unknown" /\
  orderScopeToString (hdr := dxfeed_h) 4 <> L "Unknown" /\
  orderSideToString (hdr := dxfeed_h) 3 <> L "unknown" /\
  orderSideToString (hdr := dxfeed_h) 3 <> L "Unknown".
Proof. vm_compute. repeat split; discriminate. Qed.

Lemma display_helpers_total_witness :
  (orderScopeToString (hdr := dxfeed_h) 4 = L "" /\
   orderSideToString (hdr := dxfeed_h) (-1) = L "") /\
  (orderScopeToString (hdr := dxfeed_h) 3 <> L "" /\
   In (orderScopeToString (hdr := dxfeed_h) 3) (order_scope_names) /\
   orderSideToString (hdr := dxfeed_h) 2 <> L "" /\
   In (orderSideToString (hdr := dxfeed_h) 2) (order_side_names)).
Proof.
  split.
  - pose proof (@display_helpers_total dxfeed_h 4 (-1)) as (_ & _ & Hs & Hd & _).
    split; [apply Hs | apply Hd]; vm_compute; intuition discriminate.
  - pose proof (@display_helpers_total dxfeed_h 3 2) as (_ & _ & Hs & Hd & Ns & Nd).
    assert (Is : In 3 (order_scopes (hdr := dxfeed_h))) by (vm_compute; tauto).
    assert (Id : In 2 (order_sides (hdr := dxfeed_h))) by (vm_compute; tauto).
    repeat split.
    + intros E. exact (proj1 Hs E Is).
    + exact (Ns Is).
    + intros E. exact (proj1 Hd E Id).
    + exact (Nd Id).
Defined.

Example known_values_named :
  map (orderScopeToString (hdr := dxfeed_h)) [0; 1; 2; 3] =
    [L "Composite"; L "Regional"; L "Aggregate"; L "Order"] /\
  map (orderSideToString (hdr := dxfeed_h)) [0; 1; 2] =
    [L "Undefined"; L "Buy"; L "Sell"].
Proof. vm_compute. split; reflexivity. Qed.

(** ** The listener *)

Lemma listener_round_trip_witness :
  let r0 := ctor1 [] in
  let r := @Close_times Script scripted dxfeed_h 1 (result r0) (state_after r0) in
  (exists res,
      List.filter is_attach_listener (events r0) =
      [EvAttachListener 100 (lambda_of 1) 1 res]) /\
  (exists res', In (EvDetachListener 100 (lambda_of 1) res') (events r)) /\
  (lambda_of 2 <> lambda_of 1 /\ 2%N <> 1%N).
Proof.
  intros r0 r.
  destruct (@listener_round_trip Script scripted dxfeed_h 1 2 7 7 ETH_USD ETH_USD
              0 [1; 2; 1]%N (script []) (script []))
    as (_ & Hattach & _ & _ & Hdetach & Hother).
  split; [|split].
  - apply Hattach. intros c1 et h1 Hin. vm_compute in Hin. intuition discriminate.
  - apply (Hdetach 100 (lambda_of 1) 1%N 1).
    + vm_compute. pick_event.
    + reflexivity.
    + intros h1 s Hin. vm_compute in Hin. intuition discriminate.
  - apply (Hother 100 (lambda_of 1) 1%N 1 100 (lambda_of 2) 2%N 1).
    + vm_compute. pick_event.
    + vm_compute. pick_event.
    + discriminate.
Defined.

(** ** The error report *)

Lemma processLastError_trichotomy_witness :
  wcout_items (events (@processLastError Script scripted dxfeed_h (script []))) =
  [put_wide (L ("Error occurred and successfully retrieved:"
                ++ String "010"%char "error code = "));
   put_int 42;
   put_narrow (", description = " ++ String "034"%char EmptyString);
   put_wide (L "scripted failure");
   put_narrow (String "034"%char EmptyString);
   put_endl] /\
  error_outcome (hdr := dxfeed_h) 1 42 (L "scripted failure") =
  error_outcome (hdr := dxfeed_h) 1 42 (L "scripted failure").
Proof.
  pose proof (@processLastError_trichotomy Script scripted dxfeed_h
                (script []) (script [0])) as H.
  cbn [dxf_get_last_error scripted script error_info] in H.
  destruct H as (_ & Hcases & Hsame). split.
  - destruct Hcases as [(_ & _ & E & _)|[(_ & _ & _ & E)|(_ & E & _)]].
    + vm_compute in E. discriminate E.
    + exact E.
    + exfalso. apply E. reflexivity.
  - apply Hsame. reflexivity.
Defined.

Example processLastError_outcomes :
  let out (info : ERRORCODE * Z * dxf_const_string_t) :=
    wcout_items
      (events (@processLastError Script scripted dxfeed_h
                 {| answers := []; next_handle := 100; error_info := info |})) in
  out (1, 0, None) = @msg_no_error /\
  out (1, 42, L "scripted failure") = msg_error 42 (L "scripted failure") /\
  out (0, 0, None) = msg_unavailable.
Proof. vm_compute. repeat split. Qed.

(** * Further properties *)

(** ** [StringConverter] *)

Section StringConverterFacts.
Variable char_is_signed : bool.
Variable wchar_bits : N.

Lemma wchar_to_char_to_wchar (c : ascii) :
  (8 <= wchar_bits)%N ->
  StringConverter.wchar_to_char
    (StringConverter.char_to_wchar char_is_signed wchar_bits c) = c.
Proof.
  intros Hw. unfold StringConverter.wchar_to_char, StringConverter.char_to_wchar.
  cbv zeta. pose proof (N_ascii_bounded c) as Hc.
  destruct (char_is_signed && (128 <=? N_of_ascii c)%N).
  - replace wchar_bits with (8 + (wchar_bits - 8))%N by lia.
    rewrite N.pow_add_r. change (2 ^ 8)%N with 256%N.
    assert (Hp : (1 <= 2 ^ (wchar_bits - 8))%N)
      by (apply N.neq_0_le_1, N.pow_nonzero; discriminate).
    replace (256 * 2 ^ (wchar_bits - 8) - 256 + N_of_ascii c)%N
      with (N_of_ascii c + (2 ^ (wchar_bits - 8) - 1) * 256)%N by nia.
    rewrite N.Div0.mod_add, N.mod_small by assumption.
    apply ascii_N_embedding.
  - rewrite N.mod_small by assumption. apply ascii_N_embedding.
Qed.

(** X1. Narrow to wide and back: [toString (toWString s)] is [s] for every
    string, whether plain [char] is signed or not, when [wchar_t] has at
    least eight bits. *)
Theorem toString_toWString (s : string) :
  (8 <= wchar_bits)%N ->
  StringConverter.toString
    (StringConverter.toWString char_is_signed wchar_bits s) = s.
Proof.
  intros Hw. unfold StringConverter.toString, StringConverter.toWString.
  rewrite List.map_map.
  rewrite (List.map_ext _ (fun c => c)) by (intros c; now apply wchar_to_char_to_wchar).
  rewrite List.map_id. apply string_of_list_ascii_of_string.
Qed.

(** X2. Wide to narrow and back: a wide string of 7-bit units (ASCII) is
    given back unchanged by [toWString (toString w)] on every platform. *)
Theorem toWString_toString_ascii (w : wstring) :
  Forall (fun u => (u < 128)%N) w ->
  StringConverter.toWString char_is_signed wchar_bits
    (StringConverter.toString w) = w.
Proof.
  intros Hall. unfold StringConverter.toString, StringConverter.toWString.
  rewrite list_ascii_of_string_of_list_ascii, List.map_map.
  induction Hall as [|u w Hu Hall IH]; [reflexivity|].
  cbn [map]. rewrite IH. f_equal.
  unfold StringConverter.wchar_to_char, StringConverter.char_to_wchar. cbv zeta.
  rewrite N.mod_small by lia. rewrite N_ascii_embedding by lia.
  destruct (N.leb_spec 128 u); [lia|]. now rewrite andb_false_r.
Qed.

(** X3. What [toString] loses: two wide strings get the same narrow string
    exactly when they have the same units modulo 256. *)
Theorem toString_eq (w1 w2 : wstring) :
  StringConverter.toString w1 = StringConverter.toString w2 <->
  map (fun u => u mod 256)%N w1 = map (fun u => u mod 256)%N w2.
Proof.
  assert (Hn : forall w : wstring,
             map N_of_ascii (map StringConverter.wchar_to_char w) =
             map (fun u => u mod 256)%N w).
  { intros w. rewrite List.map_map. apply List.map_ext. intros u.
    apply N_ascii_embedding, N.mod_upper_bound. discriminate. }
  unfold StringConverter.toString. split.
  - intros E.
    apply (f_equal list_ascii_of_string) in E.
    rewrite !list_ascii_of_string_of_list_ascii in E.
    rewrite <- !Hn. now rewrite E.
  - intros E. f_equal.
    apply (f_equal (map ascii_of_N)) in E. rewrite !List.map_map in E.
    exact E.
Qed.
End StringConverterFacts.

Lemma toString_toWString_witness :
  StringConverter.toString (StringConverter.toWString true 32 "ETH/USD") = "ETH/USD"%string.
Proof. apply toString_toWString. vm_compute. discriminate. Defined.

Lemma toWString_toString_ascii_witness :
  StringConverter.toWString true 16 (StringConverter.toString [69; 84; 72]%N)
  = [69; 84; 72]%N.
Proof.
  apply toWString_toString_ascii.
  repeat constructor.
Defined.

(** ** Timestamps and names *)

(** X4. [formatTimestampWithMillis] splits a timestamp into seconds and
    milliseconds without loss: the timestamp is 1000 times the seconds plus
    the milliseconds.  For a timestamp that is not negative the milliseconds
    are between 0 and 999; for a negative one they are between -999 and 0
    (and the seconds are rounded towards zero, not down). *)
Theorem formatTimestampWithMillis_split (timestamp : Z) :
  match formatTimestampWithMillis timestamp with
  | put_local_time seconds ms =>
      timestamp = 1000 * seconds + ms /\
      (0 <= timestamp -> 0 <= ms < 1000 /\ 0 <= seconds) /\
      (timestamp < 0 -> -1000 < ms <= 0 /\ seconds <= 0)
  | _ => False
  end.
Proof.
  unfold formatTimestampWithMillis. cbv zeta.
  pose proof (Z.quot_rem' timestamp 1000) as E.
  split; [exact E|]. split; intros Hs.
  - pose proof (Z.rem_bound_pos timestamp 1000 Hs ltac:(lia)).
    pose proof (Z.quot_pos timestamp 1000 Hs ltac:(lia)). lia.
  - replace timestamp with (- (- timestamp)) in * by lia.
    rewrite Z.rem_opp_l', Z.quot_opp_l by lia.
    pose proof (Z.rem_bound_pos (- timestamp) 1000 ltac:(lia) ltac:(lia)).
    pose proof (Z.quot_pos (- timestamp) 1000 ltac:(lia) ltac:(lia)). lia.
Qed.

Lemma formatTimestampWithMillis_split_witness :
  (-1000 < Z.rem (-1500) 1000 <= 0 /\ Z.quot (-1500) 1000 <= 0) /\
  (0 <= Z.rem 1700000000123 1000 < 1000 /\ 0 <= Z.quot 1700000000123 1000).
Proof.
  split.
  - apply (proj2 (proj2 (formatTimestampWithMillis_split (-1500)))). lia.
  - apply (proj1 (proj2 (formatTimestampWithMillis_split 1700000000123))). lia.
Defined.

(** X5. When the enumerators of a type have different values, the display
    helper gives each of them its own name, and the names differ: the text
    tells the enumerator. *)
Theorem display_names_distinct {hdr : DXFeedH} (a b : Z) :
  List.NoDup order_scopes -> List.NoDup order_sides ->
  map orderScopeToString order_scopes = order_scope_names /\
  map orderSideToString order_sides = order_side_names /\
  (In a order_scopes -> In b order_scopes ->
   orderScopeToString a = orderScopeToString b -> a = b) /\
  (In a order_sides -> In b order_sides ->
   orderSideToString a = orderSideToString b -> a = b).
Proof.
  unfold order_scopes, order_sides, order_scope_names, order_side_names.
  intros Hs Hd. rewrite !List.NoDup_cons_iff in Hs, Hd. cbn [In] in Hs, Hd.
  unfold orderScopeToString, orderSideToString. cbn [map In].
  repeat split.
  - repeat match goal with
           | |- context [Z.eqb ?x ?y] => destruct (Z.eqb_spec x y)
           end; try reflexivity; exfalso; intuition congruence.
  - repeat match goal with
           | |- context [Z.eqb ?x ?y] => destruct (Z.eqb_spec x y)
           end; try reflexivity; exfalso; intuition congruence.
  - intros Ha Hb.
    repeat match goal with
           | |- context [Z.eqb ?x ?y] => destruct (Z.eqb_spec x y)
           end; intros E; try congruence; try discriminate E;
      exfalso; intuition congruence.
  - intros Ha Hb.
    repeat match goal with
           | |- context [Z.eqb ?x ?y] => destruct (Z.eqb_spec x y)
           end; intros E; try congruence; try discriminate E;
      exfalso; intuition congruence.
Qed.

Lemma display_names_distinct_witness :
  map (orderScopeToString (hdr := dxfeed_h)) [0; 1; 2; 3] =
    [L "Composite"; L "Regional"; L "Aggregate"; L "Order"] /\
  map (orderSideToString (hdr := dxfeed_h)) [0; 1; 2] =
    [L "Undefined"; L "Buy"; L "Sell"].
Proof.
  destruct (@display_names_distinct dxfeed_h 0 1) as (E1 & E2 & _).
  - repeat constructor; cbn; intuition discriminate.
  - repeat constructor; cbn; intuition discriminate.
  - split; [exact E1 | exact E2].
Defined.

(** ** Concrete runs of the further properties *)

Lemma setup_then_teardown_witness :
  result ((let* s := @Subscription_ctor Script scripted dxfeed_h 1 7 ETH_USD in
           @Close Script scripted dxfeed_h s) (script []))
  = new_Subscription 1 7 ETH_USD nullptr 1.
Proof.
  refine (proj2 (proj2 (@setup_then_teardown Script scripted dxfeed_h 1 7 ETH_USD
                          (script []) _ _))).
  - intros E. vm_compute in E. discriminate E.
  - vm_compute. reflexivity.
Defined.

Lemma Close_idempotent_witness :
  let this := new_Subscription 1 7 ETH_USD 100 1 in
  result (@Close_times Script scripted dxfeed_h 3 this (script [0])) =
  result (@Close Script scripted dxfeed_h this (script [0])) /\
  List.filter is_facade_call
    (events (@Close_times Script scripted dxfeed_h 3 this (script [0]))) =
  List.filter is_facade_call
    (events (@Close Script scripted dxfeed_h this (script [0]))).
Proof.
  intros this.
  destruct (@Close_idempotent Script scripted dxfeed_h 2 this (script [0]))
    as (E1 & _ & E3).
  - intros E. vm_compute in E. discriminate E.
  - intros h l Hin. vm_compute in Hin. intuition discriminate.
  - split; [exact E1 | exact E3].
Defined.

Lemma listener_output_witness :
  wcout_items
    (events (@listener_body Script dxfeed_h 1 1 ETH_USD a_quote 1 1
               (script []))) =
  [put_narrow "Sub["; put_size_t 1; put_narrow "]: Listener[";
   put_size_t 1; put_narrow "]: "] /\
  omap (fun e => match e with EvWcout (put_double d) => Some d | _ => None end)
       (events (@listener_body Script dxfeed_h 1 2 ETH_USD
                  (with_ask 7 8 a_quote) 1 1 (script []))) =
  [0; 0; 0; 0].
Proof.
  split.
  - apply (@listener_output Script dxfeed_h 1 1 ETH_USD a_quote 1 1 0 0
             (script [])).
    intros E. vm_compute in E. discriminate E.
  - apply (@listener_output Script dxfeed_h 1 2 ETH_USD
             (with_ask 7 8 a_quote) 1 1 0 0 (script [])).
    reflexivity.
Defined.

Lemma main_releases_handles_witness :
  let r := @main_subs Script scripted dxfeed_h BackToFront 7 ETH_USD (script []) in
  Permutation (closed_handles (events r)) (created_handles (events r)) /\
  length (created_handles (events r)) = 5%nat /\
  Forall (fun s => handle s = nullptr) (result r).
Proof.
  apply (@main_releases_handles Script scripted dxfeed_h BackToFront 7 ETH_USD
           (script [])).
  - intros E. vm_compute in E. discriminate E.
  - vm_compute. reflexivity.
Defined.

Lemma closed_guard_is_final_witness :
  let this := result (ctor1 [1; 0]) in
  let r := (let* s := @run_ops Script scripted dxfeed_h
                        [OpClose; OpDispatch 2 ETH_USD a_quote 1; OpClose] this in
            @Subscription_dtor Script scripted dxfeed_h s) (script []) in
  handle this = 100 /\ result r = this /\
  count is_teardown_call (events r) = 0%nat.
Proof.
  intros this r. split; [reflexivity|].
  apply (@closed_guard_is_final Script scripted dxfeed_h
           [OpClose; OpDispatch 2 ETH_USD a_quote 1; OpClose] this (script [])).
  reflexivity.
Defined.

(** What the two checks refuse: a subscription mutex taken under [ioMutex], a
    release without a lock, a subscription call under [ioMutex]; a teardown
    call after [dxf_close_subscription], a second [dxf_close_subscription]. *)
Example lock_run_refuses :
  lock_run [] [EvLock ioMutex; EvLock (sub_mutex 1)] = None /\
  lock_run [] [EvUnlock ioMutex] = None /\
  lock_run [] [EvLock ioMutex; EvRemoveSymbol 100 ETH_USD 1] = None /\
  lock_run [] [EvLock (sub_mutex 1); EvLock ioMutex; EvUnlock (sub_mutex 1)] = None.
Proof. repeat split. Qed.

Example teardown_scan_refuses :
  teardown_scan false [EvCloseSubscription 100 1; EvRemoveSymbol 100 ETH_USD 1]
    = None /\
  teardown_scan false [EvCloseSubscription 100 0; EvCloseSubscription 100 1]
    = None.
Proof. repeat split. Qed.

(** A [char] with the top bit set, on a platform with signed [char] and a
    32-bit [wchar_t], and on one with unsigned [char]; a wide unit that does
    not fit a [char]. *)
Example conversions_at_the_edges :
  StringConverter.toWString true 32 (String "255"%char EmptyString)
    = [4294967295%N] /\
  StringConverter.toWString false 32 (String "255"%char EmptyString)
    = [255%N] /\
  StringConverter.toString [321%N] = "A"%string /\
  StringConverter.toString_wchar 66%N = "B"%string.
Proof. vm_compute. repeat split. Qed.
